(** * ipmipower: Wake-on-LAN trigger and IPMI power-on orchestration

    A shallow embedding of [main.go] of sooslaca/ipmipower and the
    properties of its trigger core:

    - [GoRuntime]: the pieces of Go semantics the program relies on
      (bounds-checked indexing, statements with early [return], counted
      [for] loops), instrumented with a log of slice reads;
    - [WOL]: [isValidWOLPacket] and the receive loop's trigger decision;
    - [MAC]: [parseMAC] on top of [strings.ReplaceAll] and [net.ParseMAC];
    - [IPMI]: [sendIPMIPowerOn] against an arbitrary controller;
    - [Config]: the flag / environment resolution done by [main]. *)

From Stdlib Require Import Strings.Byte Strings.String Strings.Ascii ZArith.
From stdpp Require Import base decidable option list strings gmap.

#[global] Instance byte_eq_dec : EqDecision byte := Byte.byte_eq_dec.

(** ** Go runtime fragment *)

Module GoRuntime.

(** Which slice a read touches, and at which index. *)
Inductive access : Type :=
| ReadData (i : nat)
| ReadTarget (j : nat).

(** How a statement of a function with result type [A] finishes: it
    falls through to the next statement, it executes [return a], or
    the runtime panics (index out of range). *)
Inductive flow (A : Type) : Type :=
| Fallthrough
| Returned (a : A)
| Panicked.
Arguments Fallthrough {A}.
Arguments Returned {A} a.
Arguments Panicked {A}.

(** A statement's execution: the reads it performed, in order, and how
    it finished. *)
Definition exec (A : Type) : Type := (list access * flow A)%type.

(** [s1; s2]: the second statement runs only when the first one falls
    through. *)
Definition seq_stmt {A} (s1 s2 : exec A) : exec A :=
  match s1.2 with
  | Fallthrough => (s1.1 ++ s2.1, s2.2)
  | _ => s1
  end.

(** [for k := i; k < i + n; k++ { body k }]. *)
Fixpoint for_range {A} (i n : nat) (body : nat → exec A) : exec A :=
  match n with
  | 0 => ([], Fallthrough)
  | S n' => seq_stmt (body i) (for_range (S i) n' body)
  end.

(** How an expression or a call that can fail finishes: with a value,
    with a returned [error], or with a runtime panic. *)
Inductive outcome (E A : Type) : Type :=
| Done (a : A)
| Failed (e : E)
| Panic.
Arguments Done {E A} a.
Arguments Failed {E A} e.
Arguments Panic {E A}.

#[global] Instance outcome_ret {E} : MRet (outcome E) := λ A a, Done a.
#[global] Instance outcome_bind {E} : MBind (outcome E) := λ A B f m,
  match m with
  | Done a => f a
  | Failed e => Failed e
  | Panic => Panic
  end.

(** [s[i]] *)
Definition index {E A} (s : list A) (i : nat) : outcome E A :=
  match s !! i with
  | Some c => Done c
  | None => Panic
  end.

(** [s[lo:hi]], [s[lo:]] and [s[:hi]] on a string or on a slice whose
    capacity is its length. *)
Definition slice {E A} (s : list A) (lo hi : nat) : outcome E (list A) :=
  if decide (lo ≤ hi ∧ hi ≤ length s) then Done (take (hi - lo) (drop lo s))
  else Panic.
Definition slice_from {E A} (s : list A) (lo : nat) : outcome E (list A) :=
  slice s lo (length s).
Definition slice_to {E A} (s : list A) (hi : nat) : outcome E (list A) :=
  slice s 0 hi.

(** [s[i] = v] *)
Definition store {E A} (s : list A) (i : nat) (v : A) : outcome E (list A) :=
  if decide (i < length s) then Done (<[i:=v]> s) else Panic.

(** [for i := i0; i < n; i += d { body }] with a loop-carried state;
    [n - i0] iterations are always enough when [d] is positive. *)
Fixpoint for_upto_fuel {E S} (fuel i n d : nat)
    (body : nat → S → outcome E S) (s : S) : outcome E S :=
  match fuel with
  | 0 => Done s
  | S fuel' =>
      if decide (i < n)
      then s' ← body i s; for_upto_fuel fuel' (i + d) n d body s'
      else Done s
  end.
Definition for_upto {E S} (i n d : nat)
    (body : nat → S → outcome E S) (s : S) : outcome E S :=
  for_upto_fuel (n - i) i n d body s.

(** The value a call of a function without [error] result yields.  A
    body that falls off its end has no value; Go rejects such a function
    at compile time. *)
Definition call_result {A} (e : exec A) : outcome Empty_set A :=
  match e.2 with
  | Returned a => Done a
  | _ => Panic
  end.

End GoRuntime.

Import GoRuntime.
Notation "s1 ;;; s2" := (seq_stmt s1 s2) (at level 100, right associativity).

(** ** The magic packet validator *)

Module WOL.

Definition xFF : byte := Byte.xff.

(** [if data[i] != 0xFF { return false }] *)
Definition sync_check (data : list byte) (i : nat) : exec bool :=
  ([ReadData i],
   match data !! i with
   | None => Panicked
   | Some x => if decide (x ≠ xFF) then Returned false else Fallthrough
   end).

(** [if data[6+i*6+j] != targetMAC[j] { return false }]; the left
    operand is read first. *)
Definition mac_check (data targetMAC : list byte) (i j : nat) : exec bool :=
  match data !! (6 + i * 6 + j) with
  | None => ([ReadData (6 + i * 6 + j)], Panicked)
  | Some x =>
      ([ReadData (6 + i * 6 + j); ReadTarget j],
       match targetMAC !! j with
       | None => Panicked
       | Some y => if decide (x ≠ y) then Returned false else Fallthrough
       end)
  end.

Definition isValidWOLPacket_exec (data targetMAC : list byte) : exec bool :=
  if decide (length data ≠ 102) then ([], Returned false)
  else
    for_range 0 6 (sync_check data) ;;;
    for_range 0 16 (λ i, for_range 0 6 (mac_check data targetMAC i)) ;;;
    ([], Returned true).

(** [isValidWOLPacket data targetMAC]: [Done b] when the call returns
    [b], [Panic] when an index is out of range. *)
Definition isValidWOLPacket (data targetMAC : list byte) : outcome Empty_set bool :=
  call_result (isValidWOLPacket_exec data targetMAC).

(** The reads the call performs. *)
Definition isValidWOLPacket_reads (data targetMAC : list byte) : list access :=
  (isValidWOLPacket_exec data targetMAC).1.

(** The datagram the claims describe: six bytes [0xFF], then sixteen
    copies of the address. *)
Definition magic_packet (m : list byte) : list byte :=
  replicate 6 xFF ++ mjoin (replicate 16 m).

(** What the two loops check, index by index. *)
Definition checks_pass (data targetMAC : list byte) : Prop :=
  Forall (λ k, data !! k = Some xFF) (seq 0 6) ∧
  Forall (λ i, Forall (λ j, data !! (6 + i * 6 + j) = targetMAC !! j) (seq 0 6))
         (seq 0 16).

(** A read is in bounds for the slices it touches. *)
Definition in_bounds (data targetMAC : list byte) (a : access) : Prop :=
  match a with
  | ReadData i => i < length data
  | ReadTarget j => j < length targetMAC
  end.

(** Where a call may read: [data] only below its length, which is then
    102, and [targetMAC] only at its first six positions. *)
Definition read_ok (data : list byte) (a : access) : Prop :=
  match a with
  | ReadData i => i < length data ∧ length data = 102
  | ReadTarget j => j < 6
  end.

(** [conn.ReadFromUDP(buffer)] on the arrival of [datagram]: the payload
    is copied to the front of the buffer, cut to the buffer's length; the
    rest of the buffer keeps what earlier datagrams left there. *)
Definition ReadFromUDP (buffer datagram : list byte) : nat * list byte :=
  let n := length datagram `min` length buffer in
  (n, take n datagram ++ drop n buffer).

(** The condition of the receive loop,
    [n >= 102 && isValidWOLPacket(buffer[:102], targetMAC)]. *)
Definition trigger_condition (buffer : list byte) (n : nat)
    (targetMAC : list byte) : outcome Empty_set bool :=
  if decide (102 ≤ n) then
    match slice_to (E:=Empty_set) buffer 102 with
    | Done packet => isValidWOLPacket packet targetMAC
    | _ => Panic
    end
  else Done false.

(** What [ReadFromUDP] hands to one iteration of the loop. *)
Inductive udp_input : Type :=
| RecvError (err : string)
| Recv (datagram : list byte).

(** One iteration of the receive loop of [main]: the buffer afterwards,
    and whether [sendIPMIPowerOn] is called. *)
Definition receive_iteration (buffer : list byte) (input : udp_input)
    (targetMAC : list byte) : list byte * outcome Empty_set bool :=
  match input with
  | RecvError _ => (buffer, Done false)
  | Recv datagram =>
      let '(n, buffer) := ReadFromUDP buffer datagram in
      (buffer, trigger_condition buffer n targetMAC)
  end.

(** [buffer := make([]byte, 1024)] *)
Definition initial_buffer : list byte := replicate 1024 Byte.x00.

(** Two addresses to run the validator on: [00:11:22:33:44:55], the
    default of the [-mac] flag, and [00:11:22:33:44:56]. *)
Definition mac_a : list byte :=
  [Byte.x00; Byte.x11; Byte.x22; Byte.x33; Byte.x44; Byte.x55].
Definition mac_b : list byte :=
  [Byte.x00; Byte.x11; Byte.x22; Byte.x33; Byte.x44; Byte.x56].

End WOL.

(** ** Parsing the target address *)

Module MAC.

(** A Go [string] is the list of its bytes; [str] reads a literal. *)
Definition str (s : string) : list byte := list_byte_of_string s.

(** [strings.ReplaceAll s old new] for a non-empty [old]: the
    occurrences of [old] are replaced from left to right without
    overlap.  [skip] counts the bytes of a matched occurrence that are
    still to be passed over. *)
Fixpoint ReplaceAll_from (skip : nat) (s old new : list byte) : list byte :=
  match s with
  | [] => []
  | c :: s' =>
      match skip with
      | S k => ReplaceAll_from k s' old new
      | 0 =>
          if decide (old `prefix_of` s)
          then new ++ ReplaceAll_from (length old - 1) s' old new
          else c :: ReplaceAll_from 0 s' old new
      end
  end.
Definition ReplaceAll (s old new : list byte) : list byte :=
  ReplaceAll_from 0 s old new.

(** [net.AddrError] *)
Record AddrError : Type := { Err : string; Addr : list byte }.

(** [const big = 0xFFFFFF] of package [net]. *)
Definition big : Z := 16777215.

Definition code (c : byte) : Z := Z.of_N (Byte.to_N c).

(** The three digit ranges of [xtoi], with the digit's value. *)
Definition hex_digit (c : byte) : option Z :=
  if decide (48 ≤ code c ≤ 57)%Z then Some (code c - 48)%Z
  else if decide (97 ≤ code c ≤ 102)%Z then Some (code c - 97 + 10)%Z
  else if decide (65 ≤ code c ≤ 70)%Z then Some (code c - 65 + 10)%Z
  else None.

(** [net.xtoi]: the loop over [s] with the running value [n] and the
    position [i]; a byte that is no hex digit breaks out of it. *)
Fixpoint xtoi_from (s : list byte) (n : Z) (i : nat) : Z * nat * bool :=
  match s with
  | c :: s' =>
      match hex_digit c with
      | Some d =>
          let n := (n * 16 + d)%Z in
          if decide (big ≤ n)%Z then (0%Z, i, false)
          else xtoi_from s' n (S i)
      | None => if decide (i = 0) then (0%Z, i, false) else (n, i, true)
      end
  | [] => if decide (i = 0) then (0%Z, i, false) else (n, i, true)
  end.
Definition xtoi (s : list byte) : Z * nat * bool := xtoi_from s 0%Z 0.

(** The conversion [byte(n)]. *)
Definition byte_of_int (n : Z) : byte :=
  default Byte.x00 (Byte.of_N (Z.to_N (n mod 256))).

(** [net.xtoi2] *)
Definition xtoi2 (s : list byte) (e : byte) : outcome AddrError (byte * bool) :=
  third_differs ←
    (if decide (2 < length s)
     then c ← index s 2; mret (bool_decide (c ≠ e))
     else mret false);
  if (third_differs : bool) then mret (Byte.x00, false)
  else
    s2 ← slice_to s 2;
    let '(n, ei, ok) := xtoi s2 in
    mret (byte_of_int n, ok && bool_decide (ei = 2)).

Definition invalid (s : list byte) : AddrError :=
  {| Err := "invalid MAC address"; Addr := s |}.

(** Loop bodies of [net.ParseMAC]; the state is [(x, hw)]. *)
Definition colon_body (s : list byte) (sep : byte) (i : nat)
    (st : nat * list byte) : outcome AddrError (nat * list byte) :=
  let '(x, hw) := st in
  sx ← slice_from s x;
  '(b, ok) ← xtoi2 sx sep;
  hw ← store hw i b;
  if (ok : bool) then mret (x + 3, hw) else Failed (invalid s).

Definition dot_body (s : list byte) (sep : byte) (i : nat)
    (st : nat * list byte) : outcome AddrError (nat * list byte) :=
  let '(x, hw) := st in
  s1 ← slice s x (x + 2);
  '(b, ok) ← xtoi2 s1 Byte.x00;
  hw ← store hw i b;
  if (ok : bool) then
    s2 ← slice_from s (x + 2);
    '(b, ok) ← xtoi2 s2 sep;
    hw ← store hw (i + 1) b;
    if (ok : bool) then mret (x + 5, hw) else Failed (invalid s)
  else Failed (invalid s).

(** [net.ParseMAC] of the Go standard library ([net/mac.go]), the
    parser [parseMAC] delegates to. *)
Definition ParseMAC (s : list byte) : outcome AddrError (list byte) :=
  if decide (length s < 14) then Failed (invalid s)
  else
    s2 ← index s 2;
    if decide (s2 = ":"%byte ∨ s2 = "-"%byte) then
      if decide ((length s + 1) `mod` 3 ≠ 0) then Failed (invalid s)
      else
        let n := (length s + 1) `div` 3 in
        if decide (n ≠ 6 ∧ n ≠ 8 ∧ n ≠ 20) then Failed (invalid s)
        else
          '(_, hw) ← for_upto 0 n 1 (colon_body s s2) (0, replicate n Byte.x00);
          mret hw
    else
      s4 ← index s 4;
      if decide (s4 = "."%byte) then
        if decide ((length s + 1) `mod` 5 ≠ 0) then Failed (invalid s)
        else
          let n := (2 * (length s + 1)) `div` 5 in
          if decide (n ≠ 6 ∧ n ≠ 8 ∧ n ≠ 20) then Failed (invalid s)
          else
            '(_, hw) ← for_upto 0 n 2 (dot_body s s4) (0, replicate n Byte.x00);
            mret hw
      else Failed (invalid s).

(** [parseMAC] of [main.go]. *)
Definition parseMAC (macStr : list byte) : outcome AddrError (list byte) :=
  let macStr := ReplaceAll macStr (str "-") (str ":") in
  match ParseMAC macStr with
  | Failed err => Failed err
  | Done hwAddr => Done hwAddr
  | Panic => Panic
  end.

End MAC.
(** ** The power-on orchestration *)

Module IPMI.

(** A non-nil Go [error], by its text. *)
Definition error : Type := string.

Inductive PrivilegeLevel : Type := PrivilegeLevelOperator.
Inductive ChassisControlCmd : Type := ChassisControlPowerUp.

(** The management controller behind the [go-ipmi] client: any state
    machine over a state [W] answering the calls the program makes.  An
    [error] result is [Some err], [nil] is [None]; [GetChassisStatus]
    answers an error or [status.PowerIsOn]. *)
Record Controller (W : Type) : Type := {
  NewClient : string → Z → string → string → W → option error * W;
  WithMaxPrivilegeLevel : PrivilegeLevel → W → W;
  WithInterface : string → W → W;
  Connect : W → option error * W;
  Close : W → option error * W;
  GetChassisStatus : W → (error + bool) * W;
  ChassisControl : ChassisControlCmd → W → option error * W
}.
Arguments NewClient {W}.
Arguments WithMaxPrivilegeLevel {W}.
Arguments WithInterface {W}.
Arguments Connect {W}.
Arguments Close {W}.
Arguments GetChassisStatus {W}.
Arguments ChassisControl {W}.

(** What a call does that is visible from outside, in order. *)
Inductive event : Type :=
| CalledNewClient (host : string) (port : Z) (username password : string)
| CalledWithMaxPrivilegeLevel (level : PrivilegeLevel)
| CalledWithInterface (name : string)
| CalledConnect (established : bool)
| CalledClose
| CalledGetChassisStatus (PowerIsOn : option bool)
| CalledChassisControl (cmd : ChassisControlCmd)
| CalledCancel
| Printed (text : string).

(** Computations over the controller's state and the trace so far. *)
Definition M (W A : Type) : Type := W * list event → A * (W * list event).

#[global] Instance M_ret {W} : MRet (M W) := λ A a st, (a, st).
#[global] Instance M_bind {W} : MBind (M W) := λ A B f m st,
  let '(a, st') := m st in f a st'.

Definition emit {W} (e : event) : M W unit :=
  λ '(w, tr), (tt, (w, tr ++ [e])).

(** A call answered by the controller, recorded by [ev]. *)
Definition call {W A} (op : W → A * W) (ev : A → event) : M W A :=
  λ '(w, tr), let '(a, w') := op w in (a, (w', tr ++ [ev a])).

(** [defer d] in front of the statements [body]: [d] runs when the
    function returns, whichever [return] is taken, after the result has
    been computed. *)
Definition defer {W A} (d : M W unit) (body : M W A) : M W A :=
  r ← body; d;; mret r.

Definition nl : string := String (ascii_of_nat 10) EmptyString.

(** [fmt.Errorf(format, err)] for a format ending in [%v]. *)
Definition Errorf (prefix : string) (err : error) : error := prefix +:+ err.
Definition Println {W} (line : string) : M W unit := emit (Printed (line +:+ nl)).

Section client.
Context {W : Type} (bmc : Controller W).

Definition is_nil (err : option error) : bool :=
  match err with None => true | Some _ => false end.

(** What a status query told the caller: [None] when it failed. *)
Definition answered (status : error + bool) : option bool :=
  match status with inl _ => None | inr PowerIsOn => Some PowerIsOn end.

Definition sendIPMIPowerOn (host username password : string) (port : Z)
    : M W (option error) :=
  err ← call (NewClient bmc host port username password)
             (λ _, CalledNewClient host port username password);
  match err with
  | Some err => mret (Some (Errorf "failed to create IPMI client: " err))
  | None =>
    call (λ w, (tt, WithMaxPrivilegeLevel bmc PrivilegeLevelOperator w))
         (λ _, CalledWithMaxPrivilegeLevel PrivilegeLevelOperator);;
    call (λ w, (tt, WithInterface bmc "lanplus" w))
         (λ _, CalledWithInterface "lanplus");;
    defer (emit CalledCancel) (
      err ← call (Connect bmc) (λ err, CalledConnect (is_nil err));
      match err with
      | Some err => mret (Some (Errorf "failed to establish session: " err))
      | None =>
        defer (call (Close bmc) (λ _, CalledClose);; mret tt) (
          emit (Printed ("Connected to BMC at " +:+ host +:+ nl));;
          status ← call (GetChassisStatus bmc)
                        (λ status, CalledGetChassisStatus (answered status));
          match status with
          | inl err => mret (Some (Errorf "failed to get chassis status: " err))
          | inr PowerIsOn =>
            if (PowerIsOn : bool) then
              Println "The server is already powered ON. No action taken.";;
              mret None
            else
              Println "Server is currently OFF. Sending Power Up command...";;
              err ← call (ChassisControl bmc ChassisControlPowerUp)
                         (λ _, CalledChassisControl ChassisControlPowerUp);
              match err with
              | Some err =>
                  mret (Some (Errorf "failed to send Power Up command: " err))
              | None =>
                  Println "Success: Power On command sent.";;
                  mret None
              end
          end)
      end)
  end.

(** A call from a fresh trace: the returned [error] and the trace. *)
Definition run_sendIPMIPowerOn (host username password : string) (port : Z)
    (w : W) : option error * list event :=
  let '(err, (_, tr)) := sendIPMIPowerOn host username password port (w, []) in
  (err, tr).

(** The client as [sendIPMIPowerOn] configures it before connecting. *)
Definition configured (w : W) : W :=
  WithInterface bmc "lanplus"
    (WithMaxPrivilegeLevel bmc PrivilegeLevelOperator w).

(** Session establishment from the state [w]: the client is created and
    [Connect] succeeds, leaving the controller in [w2]; or one of the two
    fails. *)
Definition session_established (host username password : string) (port : Z)
    (w w2 : W) : Prop :=
  ∃ w1, NewClient bmc host port username password w = (None, w1) ∧
        Connect bmc (configured w1) = (None, w2).

Definition session_fails (host username password : string) (port : Z)
    (w : W) : Prop :=
  (∃ err w1, NewClient bmc host port username password w = (Some err, w1)) ∨
  (∃ w1 err w2, NewClient bmc host port username password w = (None, w1) ∧
                Connect bmc (configured w1) = (Some err, w2)).

End client.

(** A small controller to run the program against: its state is the
    power state of the machine; [Connect] and the power-up command fail
    when an error is given for them. *)
Definition sample_bmc (connect_err control_err : option error) : Controller bool := {|
  NewClient _ _ _ _ w := (None, w);
  WithMaxPrivilegeLevel _ w := w;
  WithInterface _ w := w;
  Connect w := (connect_err, w);
  Close w := (None, w);
  GetChassisStatus w := (inr w, w);
  ChassisControl _ w := (control_err, if is_nil control_err then true else w)
|}.

(** The calls every run makes before [Connect], once the client exists,
    and the lines the program prints. *)
Definition client_setup (host username password : string) (port : Z)
    : list event :=
  [CalledNewClient host port username password;
   CalledWithMaxPrivilegeLevel PrivilegeLevelOperator;
   CalledWithInterface "lanplus"].
Definition line_connected (host : string) : string :=
  "Connected to BMC at " +:+ host +:+ nl.
Definition line_already_on : string :=
  "The server is already powered ON. No action taken." +:+ nl.
Definition line_sending : string :=
  "Server is currently OFF. Sending Power Up command..." +:+ nl.
Definition line_sent : string := "Success: Power On command sent." +:+ nl.

(** Reading a trace. *)
Definition is_power_on_command (e : event) : bool :=
  match e with CalledChassisControl ChassisControlPowerUp => true | _ => false end.
Definition is_status_query (e : event) : bool :=
  match e with CalledGetChassisStatus _ => true | _ => false end.
Definition is_connect (e : event) : bool :=
  match e with CalledConnect _ => true | _ => false end.
Definition is_close (e : event) : bool :=
  match e with CalledClose => true | _ => false end.
Definition count (p : event → bool) (tr : list event) : nat :=
  length (filter (λ e, p e = true) tr).

(** Whether a session is open after a trace: a successful [Connect]
    opens it, [Close] releases it. *)
Definition session_open (tr : list event) : bool :=
  foldl (λ open e,
           match e with
           | CalledConnect true => true
           | CalledClose => false
           | _ => open
           end) false tr.

(** The four outcomes the specification names, read off what the
    function hands to its caller: the returned [error] and, for the two
    [nil] returns, the line printed last. *)
Inductive Outcome : Type :=
| NoActionAlreadyOn | PowerOnIssued | QueryFailed | CommandFailed.

Definition last_printed (tr : list event) : option string :=
  last (omap (λ e, match e with Printed s => Some s | _ => None end) tr).

Definition outcome_of (r : option error * list event) : option Outcome :=
  match r.1 with
  | Some err =>
      if String.prefix "failed to send Power Up command: " err
      then Some CommandFailed else Some QueryFailed
  | None =>
      match last_printed r.2 with
      | Some line =>
          if decide (line = "The server is already powered ON. No action taken." +:+ nl)
          then Some NoActionAlreadyOn
          else if decide (line = "Success: Power On command sent." +:+ nl)
          then Some PowerOnIssued
          else None
      | None => None
      end
  end.

End IPMI.

(** ** Configuration *)

Module Config.

(** The process environment and the flags given on the command line, by
    name. *)
Definition Getenv (env : gmap string string) (key : string) : string :=
  default "" (env !! key).

Definition getEnvOrDefault (env : gmap string string) (key defaultValue : string)
    : string :=
  let value := Getenv env key in
  if decide (value ≠ "") then value else defaultValue.

(** [*flag.String(name, value, usage)] after [flag.Parse()]. *)
Definition flag_String (args : gmap string string) (name value : string) : string :=
  default value (args !! name).

Record settings : Type := {
  finalHost : string;
  finalUsername : string;
  finalPassword : string;
  finalMAC : string
}.

(** The resolution at the top of [main]. *)
Definition resolve (args env : gmap string string) : settings :=
  let host := flag_String args "host" "" in
  let username := flag_String args "username" "" in
  let password := flag_String args "password" "" in
  let mac := flag_String args "mac" "00:11:22:33:44:55" in
  let finalHost :=
    if decide (host = "") then getEnvOrDefault env "IPMI_HOST" "192.168.0.1"
    else host in
  let finalUsername :=
    if decide (username = "") then getEnvOrDefault env "IPMI_USERNAME" "admin"
    else username in
  let finalPassword :=
    if decide (password = "") then getEnvOrDefault env "IPMI_PASSWORD" "admin"
    else password in
  let finalMAC :=
    let envMAC := getEnvOrDefault env "WOL_MAC" "" in
    if decide (envMAC ≠ "") then envMAC else mac in
  {| finalHost := finalHost; finalUsername := finalUsername;
     finalPassword := finalPassword; finalMAC := finalMAC |}.

End Config.

(** ** The web handlers *)

Module Web.
Import IPMI Config.

(** [WebPageData] *)
Record WebPageData : Type := {
  Host : string;
  Status : string;
  IsPowered : bool
}.

Definition getStatusString (isPowered : bool) : string :=
  if isPowered then "ON" else "OFF".

(** The three places where the page template of [webHandler] branches on
    the data: the class of the status box, whether the [Power ON] form is
    offered (otherwise the button is disabled), and whether the page
    reloads itself after a second. *)
Definition status_class (data : WebPageData) : string :=
  if decide (Status data = "ON") then "on"
  else if decide (Status data = "Unknown") then "unknown"
  else "off".
Definition offers_power_on (data : WebPageData) : bool := negb (IsPowered data).
Definition reloads_itself (data : WebPageData) : bool :=
  bool_decide (Status data = "Unknown").

(** What a handler writes: [http.Error(w, body, code)] or
    [http.Redirect(w, r, url, code)]. *)
Inductive response : Type :=
| HttpError (body : string) (code : Z)
| HttpRedirect (url : string) (code : Z).

Definition MethodPost : string := "POST".
Definition StatusSeeOther : Z := 303.
Definition StatusMethodNotAllowed : Z := 405.
Definition StatusInternalServerError : Z := 500.

Section handlers.
Context {W : Type} (bmc : Controller W).

Definition getPowerStatus (host username password : string) (port : Z)
    : M W (bool * option error) :=
  err ← call (NewClient bmc host port username password)
             (λ _, CalledNewClient host port username password);
  match err with
  | Some err => mret (false, Some (Errorf "failed to create IPMI client: " err))
  | None =>
    call (λ w, (tt, WithMaxPrivilegeLevel bmc PrivilegeLevelOperator w))
         (λ _, CalledWithMaxPrivilegeLevel PrivilegeLevelOperator);;
    call (λ w, (tt, WithInterface bmc "lanplus" w))
         (λ _, CalledWithInterface "lanplus");;
    defer (emit CalledCancel) (
      err ← call (Connect bmc) (λ err, CalledConnect (is_nil err));
      match err with
      | Some err =>
          mret (false, Some (Errorf "failed to establish session: " err))
      | None =>
        defer (call (Close bmc) (λ _, CalledClose);; mret tt) (
          status ← call (GetChassisStatus bmc)
                        (λ status, CalledGetChassisStatus (answered status));
          match status with
          | inl err =>
              mret (false, Some (Errorf "failed to get chassis status: " err))
          | inr PowerIsOn => mret (PowerIsOn, None)
          end)
      end)
  end.

(** [webHandler] up to the data it hands to the page template, with the
    lines it logs. *)
Definition webHandler (env : gmap string string)
    : M W (WebPageData * list string) :=
  let host := getEnvOrDefault env "IPMI_HOST" "192.168.0.1" in
  let username := getEnvOrDefault env "IPMI_USERNAME" "admin" in
  let password := getEnvOrDefault env "IPMI_PASSWORD" "admin" in
  let port := 623%Z in
  '(isPowered, err) ← getPowerStatus host username password port;
  match err with
  | Some err =>
      mret ({| Host := host; Status := "Unknown"; IsPowered := false |},
            ["Error getting power status: " +:+ err])
  | None =>
      mret ({| Host := host; Status := getStatusString isPowered;
               IsPowered := isPowered |}, [])
  end.

(** [powerOnHandler] on a request with the given method. *)
Definition powerOnHandler (env : gmap string string) (method : string)
    : M W response :=
  if decide (method ≠ MethodPost)
  then mret (HttpError "Method not allowed" StatusMethodNotAllowed)
  else
    let host := getEnvOrDefault env "IPMI_HOST" "192.168.0.1" in
    let username := getEnvOrDefault env "IPMI_USERNAME" "admin" in
    let password := getEnvOrDefault env "IPMI_PASSWORD" "admin" in
    let port := 623%Z in
    err ← sendIPMIPowerOn bmc host username password port;
    match err with
    | Some err =>
        mret (HttpError ("Error powering on: " +:+ err)
                        StatusInternalServerError)
    | None => mret (HttpRedirect "/" StatusSeeOther)
    end.

End handlers.

End Web.

(** ** The receive loop and [main] *)

Module Listener.
Import WOL IPMI Config.

(** What the loop carries from one iteration to the next: the receive
    buffer, the controller, what has been done to it and printed, and
    the lines logged. *)
Record loop_state (W : Type) : Type := {
  buffer : list byte;
  world : W;
  trace : list event;
  logs : list string
}.
Arguments buffer {W}.
Arguments world {W}.
Arguments trace {W}.
Arguments logs {W}.

Definition is_new_client (e : event) : bool :=
  match e with CalledNewClient _ _ _ _ => true | _ => false end.

(** Whether a datagram makes the loop call [sendIPMIPowerOn]: it has 102
    bytes or more, the first 102 of them the magic packet of the first
    six bytes of the target. *)
Definition triggers (targetMAC : list byte) (input : string * udp_input) : bool :=
  match input.2 with
  | RecvError _ => false
  | Recv datagram =>
      bool_decide (102 ≤ length datagram ∧
                   take 102 datagram = magic_packet (take 6 targetMAC))
  end.

Section loop.
Context {W : Type} (bmc : Controller W).

(** One pass through the body of [for { ... }] in [main], for a read
    that came from [clientAddr]. *)
Definition loop_body (cfg : settings) (port : Z) (targetMAC : list byte)
    (st : loop_state W) (input : string * udp_input)
    : outcome Empty_set (loop_state W) :=
  let '(clientAddr, read) := input in
  match read with
  | RecvError err =>
      Done {| buffer := buffer st; world := world st; trace := trace st;
              logs := logs st ++ ["Error reading UDP message: " +:+ err] |}
  | Recv datagram =>
      let '(n, buf) := ReadFromUDP (buffer st) datagram in
      fires ← trigger_condition buf n targetMAC;
      if (fires : bool) then
        let '(err, (w, tr)) :=
          (emit (Printed ("Received valid WoL packet from " +:+ clientAddr
                          +:+ " for MAC " +:+ finalMAC cfg +:+ nl));;
           sendIPMIPowerOn bmc (finalHost cfg) (finalUsername cfg)
             (finalPassword cfg) port) (world st, trace st) in
        Done {| buffer := buf; world := w; trace := tr;
                logs := logs st ++
                  match err with
                  | Some err => ["Error executing IPMI command: " +:+ err]
                  | None => []
                  end |}
      else
        Done {| buffer := buf; world := world st; trace := trace st;
                logs := logs st |}
  end.

(** The loop over the reads that arrive, in order. *)
Fixpoint receive_loop (cfg : settings) (port : Z) (targetMAC : list byte)
    (inputs : list (string * udp_input)) (st : loop_state W)
    : outcome Empty_set (loop_state W) :=
  match inputs with
  | [] => Done st
  | input :: inputs =>
      st ← loop_body cfg port targetMAC st input;
      receive_loop cfg port targetMAC inputs st
  end.

(** The method [Error] of [net.AddrError]. *)
Definition AddrError_Error (e : MAC.AddrError) : string :=
  if decide (MAC.Addr e ≠ [])
  then "address " +:+ string_of_list_byte (MAC.Addr e) +:+ ": " +:+ MAC.Err e
  else MAC.Err e.

(** How the sequential part of [main] ends: [log.Fatalf] with a message,
    a plain return, a panic, or by going on to serve: the web server is
    started and the receive loop entered with the settings and the
    target it has arrived at. *)
Inductive ending : Type :=
| Fatal (message : string)
| Returned0
| Crashed
| Serves (cfg : settings) (targetMAC : list byte).

(** [main], from the parsed flags to the point where it starts the web
    server and the listener: [args] holds the string flags that were
    given, [port] the value of [-port].  With the ending comes what was
    done to the controller and printed on the way. *)
Definition main (args env : gmap string string) (port : Z) (w : W)
    : ending * list event :=
  let mode := flag_String args "mode" "wol" in
  let cfg := resolve args env in
  match MAC.parseMAC (MAC.str (finalMAC cfg)) with
  | Failed err =>
      (Fatal ("Invalid MAC address format: " +:+ AddrError_Error err), [])
  | Panic => (Crashed, [])
  | Done targetMAC =>
      if decide (mode = "direct") then
        let '(err, tr) :=
          run_sendIPMIPowerOn bmc (finalHost cfg) (finalUsername cfg)
            (finalPassword cfg) port w in
        match err with
        | Some err => (Fatal ("Error executing IPMI command: " +:+ err), tr)
        | None => (Returned0, tr)
        end
      else (Serves cfg targetMAC, [])
  end.

End loop.

End Listener.

(** ** The first version of the program *)

Module Legacy.
Import IPMI.

(** How the first [main] ends: it returns, or [log.Fatalf] ends the
    process on the spot, without running the deferred calls. *)
Inductive ending : Type :=
| Returned0
| Fatal (message : string).

(** [defer d] where the statements that follow may end the process. *)
Definition defer_unless_fatal {W} (d : M W unit) (body : M W ending) : M W ending :=
  r ← body;
  match r with
  | Returned0 => d;; mret Returned0
  | Fatal message => mret (Fatal message)
  end.

Section first_main.
Context {W : Type} (bmc : Controller W).

(** The body the two early versions of [main] share, for the settings
    they arrive at. *)
Definition power_on_or_die (host username password : string) (port : Z)
    : M W ending :=
  err ← call (NewClient bmc host port username password)
             (λ _, CalledNewClient host port username password);
  match err with
  | Some err => mret (Fatal ("Failed to create IPMI client: " +:+ err))
  | None =>
    call (λ w, (tt, WithMaxPrivilegeLevel bmc PrivilegeLevelOperator w))
         (λ _, CalledWithMaxPrivilegeLevel PrivilegeLevelOperator);;
    call (λ w, (tt, WithInterface bmc "lanplus" w))
         (λ _, CalledWithInterface "lanplus");;
    defer_unless_fatal (emit CalledCancel) (
      err ← call (Connect bmc) (λ err, CalledConnect (is_nil err));
      match err with
      | Some err => mret (Fatal ("Failed to establish session: " +:+ err))
      | None =>
        defer_unless_fatal (call (Close bmc) (λ _, CalledClose);; mret tt) (
          emit (Printed ("Connected to BMC at " +:+ host +:+ nl));;
          status ← call (GetChassisStatus bmc)
                        (λ status, CalledGetChassisStatus (answered status));
          match status with
          | inl err => mret (Fatal ("Failed to get chassis status: " +:+ err))
          | inr PowerIsOn =>
            if (PowerIsOn : bool) then
              Println "The server is already powered ON. No action taken.";;
              mret Returned0
            else
              Println "Server is currently OFF. Sending Power Up command...";;
              err ← call (ChassisControl bmc ChassisControlPowerUp)
                         (λ _, CalledChassisControl ChassisControlPowerUp);
              match err with
              | Some err =>
                  mret (Fatal ("Failed to send Power Up command: " +:+ err))
              | None =>
                  Println "Success: Power On command sent.";;
                  mret Returned0
              end
          end)
      end)
  end.

(** The first [main], with its settings written into the code. *)
Definition main_v1 : M W ending :=
  power_on_or_die "192.168.0.1" "admin" "admin" 623.

(** The second [main], with flags and environment. *)
Definition main_v2 (args env : gmap string string) (port : Z) : M W ending :=
  let cfg := Config.resolve args env in
  power_on_or_die (Config.finalHost cfg) (Config.finalUsername cfg)
    (Config.finalPassword cfg) port.

End first_main.

End Legacy.

(** ** Addresses as text *)

Module MACText.
Import MAC.

(** The text of an address: two digits for each octet, [sep] between
    octets. *)
Fixpoint render (sep : byte) (octets : list (byte * byte)) : list byte :=
  match octets with
  | [] => []
  | (h, l) :: rest =>
      match rest with
      | [] => [h; l]
      | _ :: _ => h :: l :: sep :: render sep rest
      end
  end.

(** The byte two hex digits stand for. *)
Definition octet_value (digits : byte * byte) : option byte :=
  hi ← hex_digit digits.1; lo ← hex_digit digits.2;
  Some (byte_of_int (hi * 16 + lo)).

(** What [strings.ReplaceAll s "-" ":"] does to one byte. *)
Definition colon_for_hyphen (c : byte) : byte :=
  if decide (c = "-"%byte) then ":"%byte else c.

End MACText.

(** ** Precedence *)

Module Precedence.

(** The first of a list of candidates that is there and not empty, and
    [builtin] if there is none. *)
Fixpoint first_nonempty (candidates : list (option string)) (builtin : string)
    : string :=
  match candidates with
  | [] => builtin
  | Some value :: candidates =>
      if decide (value = "") then first_nonempty candidates builtin else value
  | None :: candidates => first_nonempty candidates builtin
  end.

End Precedence.

(** ** Inputs to run the program on *)

Module Samples.
Import WOL IPMI Listener.

(** The digits of [00-11-22-33-44-55]. *)
Definition octets_a : list (byte * byte) :=
  [("0"%byte, "0"%byte); ("1"%byte, "1"%byte); ("2"%byte, "2"%byte);
   ("3"%byte, "3"%byte); ("4"%byte, "4"%byte); ("5"%byte, "5"%byte)].

(** The same with a letter that is no hex digit in the last octet. *)
Definition octets_bad : list (byte * byte) :=
  [("0"%byte, "0"%byte); ("1"%byte, "1"%byte); ("2"%byte, "2"%byte);
   ("3"%byte, "3"%byte); ("4"%byte, "4"%byte); ("5"%byte, "g"%byte)].

(** The loop's state when it is entered, for a machine that is off. *)
Definition entry_state : loop_state bool :=
  {| buffer := initial_buffer; world := false; trace := []; logs := [] |}.

(** A failed read, a datagram that is too short and the magic packet of
    another address. *)
Definition quiet_reads : list (string * udp_input) :=
  [("", RecvError "i/o timeout");
   ("10.0.0.7:40000", Recv [Byte.xff; Byte.xff]);
   ("10.0.0.7:40000", Recv (magic_packet mac_b))].

(** The same reads with the magic packet of the target, padded, after
    them. *)
Definition reads_with_trigger : list (string * udp_input) :=
  quiet_reads ++
  [("10.0.0.7:40000", Recv (magic_packet mac_a ++ [Byte.x01; Byte.x02]))].

Definition settings_a : Config.settings :=
  Config.resolve ∅ ∅.

End Samples.

(** * Properties *)

(** ** Statements and loops *)

Section for_range_lemmas.
Context {A : Type}.
Implicit Types (body : nat → exec A) (P : nat → Prop).

Lemma seq_stmt_flow (s1 s2 : exec A) :
  (s1 ;;; s2).2 = match s1.2 with Fallthrough => s2.2 | r => r end.
Proof. unfold seq_stmt. by destruct (s1.2) eqn:E; simpl; rewrite ?E. Qed.

Lemma seq_stmt_reads (Q : access → Prop) (s1 s2 : exec A) :
  Forall Q s1.1 → Forall Q s2.1 → Forall Q (s1 ;;; s2).1.
Proof.
  intros H1 H2. unfold seq_stmt. destruct (s1.2); simpl; [|done..].
  by apply Forall_app.
Qed.

(** A loop whose iterations are checks ([P k] holds: fall through;
    otherwise [return a]) returns [a] unless every check passes. *)
Lemma for_range_check (a : A) P `{!∀ k, Decision (P k)} body i n :
  (∀ k, i ≤ k < i + n →
        (body k).2 = if decide (P k) then Fallthrough else Returned a) →
  (for_range i n body).2 =
    if decide (Forall P (seq i n)) then Fallthrough else Returned a.
Proof.
  revert i. induction n as [|n IH]; intros i Hbody; cbn [for_range seq].
  - destruct (decide (Forall P [])) as [|Hn]; [done | destruct Hn; constructor].
  - pose proof (Hbody i ltac:(lia)) as Hi.
    rewrite seq_stmt_flow, Hi, IH by (intros k ?; apply Hbody; lia).
    destruct (decide (P i)) as [HP|HP].
    + apply decide_ext. rewrite Forall_cons. tauto.
    + rewrite decide_False; [done |]. rewrite Forall_cons. tauto.
Qed.

(** Every read of a loop is a read of one of its iterations. *)
Lemma for_range_reads (Q : access → Prop) body i n :
  (∀ k, i ≤ k < i + n → Forall Q (body k).1) →
  Forall Q (for_range i n body).1.
Proof.
  revert i. induction n as [|n IH]; intros i Hbody; cbn [for_range].
  - constructor.
  - apply seq_stmt_reads; [apply Hbody; lia |].
    apply IH. intros k ?. apply Hbody. lia.
Qed.

End for_range_lemmas.

(** ** The validator *)

Section validator.
Import WOL.
Implicit Types (data targetMAC m : list byte).

Lemma lookup_join_replicate {A} (n : nat) (l : list A) (i j : nat) :
  i < n → j < length l → mjoin (replicate n l) !! (i * length l + j) = l !! j.
Proof.
  revert i. induction n as [|n IH]; intros i Hi Hj; [lia |].
  cbn [replicate mjoin list_join]. destruct i as [|i].
  - by rewrite lookup_app_l by (simpl; lia).
  - rewrite lookup_app_r by (simpl; lia).
    replace (S i * length l + j - length l) with (i * length l + j) by lia.
    apply IH; lia.
Qed.

Lemma length_magic_packet m : length m = 6 → length (magic_packet m) = 102.
Proof.
  intros Hm. unfold magic_packet.
  rewrite length_app, length_replicate, length_join, fmap_replicate, Hm.
  reflexivity.
Qed.

Lemma lookup_magic_sync m k : k < 6 → magic_packet m !! k = Some xFF.
Proof.
  intros Hk. unfold magic_packet.
  rewrite lookup_app_l by (rewrite length_replicate; lia).
  by apply lookup_replicate_2.
Qed.

Lemma lookup_magic_mac m i j :
  length m = 6 → i < 16 → j < 6 → magic_packet m !! (6 + i * 6 + j) = m !! j.
Proof.
  intros Hm Hi Hj. unfold magic_packet.
  rewrite lookup_app_r by (rewrite length_replicate; lia).
  rewrite length_replicate, <-Hm.
  replace (length m + i * length m + j - length m) with (i * length m + j) by lia.
  apply lookup_join_replicate; lia.
Qed.

Lemma checks_pass_magic data targetMAC :
  length data = 102 → 6 ≤ length targetMAC →
  checks_pass data targetMAC ↔ data = magic_packet (take 6 targetMAC).
Proof.
  intros Hd Ht. unfold checks_pass.
  assert (length (take 6 targetMAC) = 6) as Hm by (rewrite length_take; lia).
  rewrite Forall_seq. setoid_rewrite Forall_seq. setoid_rewrite Forall_seq.
  split.
  - intros [Hsync Hmac]. apply list_eq. intros k.
    destruct (decide (k < 6)) as [Hk|Hk].
    { rewrite lookup_magic_sync by done. apply Hsync. lia. }
    destruct (decide (k < 102)) as [Hk'|Hk'].
    + replace k with (6 + ((k - 6) `div` 6) * 6 + (k - 6) `mod` 6)
        by (pose proof (Nat.div_mod_eq (k - 6) 6); lia).
      assert ((k - 6) `div` 6 < 16) by (apply Nat.Div0.div_lt_upper_bound; lia).
      assert ((k - 6) `mod` 6 < 6) by (apply Nat.mod_upper_bound; lia).
      rewrite lookup_magic_mac, lookup_take_lt by done.
      apply Hmac; lia.
    + rewrite !lookup_ge_None_2; [done | | lia].
      rewrite length_magic_packet by done. lia.
  - intros ->. split.
    + intros k ?. apply lookup_magic_sync. lia.
    + intros i ? j ?. rewrite lookup_magic_mac by (done || lia).
      apply lookup_take_lt. lia.
Qed.

Lemma sync_check_flow data k :
  k < length data →
  (sync_check data k).2 =
    if decide (data !! k = Some xFF) then Fallthrough else Returned false.
Proof.
  intros Hk. unfold sync_check. cbn [snd].
  destruct (lookup_lt_is_Some_2 data k Hk) as [x ->].
  destruct (decide (x ≠ xFF)) as [Hx|Hx].
  - rewrite decide_False; [done | congruence].
  - rewrite decide_True; [done |]. f_equal. by destruct (decide (x = xFF)).
Qed.

Lemma mac_check_flow data targetMAC i j :
  6 + i * 6 + j < length data → j < length targetMAC →
  (mac_check data targetMAC i j).2 =
    if decide (data !! (6 + i * 6 + j) = targetMAC !! j)
    then Fallthrough else Returned false.
Proof.
  intros Hk Hj. unfold mac_check.
  destruct (lookup_lt_is_Some_2 data _ Hk) as [x ->].
  destruct (lookup_lt_is_Some_2 targetMAC _ Hj) as [y ->]. cbn [snd].
  destruct (decide (x ≠ y)) as [Hx|Hx].
  - rewrite decide_False; [done | congruence].
  - rewrite decide_True; [done |]. f_equal. by destruct (decide (x = y)).
Qed.

(** The call never panics on a target of at least six bytes, and it
    returns [true] exactly on the magic packet of the target's first six
    bytes. *)
Lemma isValidWOLPacket_spec data targetMAC :
  6 ≤ length targetMAC →
  isValidWOLPacket data targetMAC =
    Done (bool_decide (data = magic_packet (take 6 targetMAC))).
Proof.
  intros Ht. unfold isValidWOLPacket, isValidWOLPacket_exec, call_result.
  assert (length (take 6 targetMAC) = 6) as Hm by (rewrite length_take; lia).
  destruct (decide (length data ≠ 102)) as [Hd|Hd]; cbn [snd].
  { rewrite bool_decide_eq_false_2; [done |]. intros ->.
    by rewrite length_magic_packet in Hd. }
  apply dec_stable in Hd.
  rewrite !seq_stmt_flow. cbn [snd].
  rewrite (for_range_check false (λ k, data !! k = Some xFF))
    by (intros k ?; apply sync_check_flow; lia).
  rewrite (for_range_check false
             (λ i, Forall (λ j, data !! (6 + i * 6 + j) = targetMAC !! j) (seq 0 6))).
  2:{ intros i ?. apply for_range_check. intros j ?.
      apply mac_check_flow; lia. }
  pose proof (checks_pass_magic data targetMAC Hd Ht) as Hiff.
  unfold checks_pass in Hiff.
  repeat case_decide; f_equal; symmetry;
    first [apply bool_decide_eq_true_2; tauto
          | apply bool_decide_eq_false_2; tauto].
Qed.

Lemma isValidWOLPacket_reads_ok data targetMAC :
  Forall (read_ok data) (isValidWOLPacket_reads data targetMAC).
Proof.
  unfold isValidWOLPacket_reads, isValidWOLPacket_exec.
  destruct (decide (length data ≠ 102)) as [Hd|Hd]; [constructor |].
  apply dec_stable in Hd.
  apply seq_stmt_reads; [| apply seq_stmt_reads; [| constructor]].
  - apply for_range_reads. intros k ?. unfold sync_check. cbn [fst].
    apply Forall_singleton. simpl. lia.
  - apply for_range_reads. intros i ?. apply for_range_reads. intros j ?.
    unfold mac_check. destruct (data !! _); cbn [fst];
      repeat (apply Forall_cons_2 || apply Forall_nil_2); simpl; lia.
Qed.

Lemma magic_packet_inj m m' :
  length m = 6 → length m' = 6 → magic_packet m = magic_packet m' → m = m'.
Proof.
  intros Hm Hm' Heq. apply list_eq. intros j.
  destruct (decide (j < 6)) as [Hj|Hj].
  - rewrite <-(lookup_magic_mac m 0 j), <-(lookup_magic_mac m' 0 j) by (done || lia).
    by rewrite Heq.
  - rewrite !lookup_ge_None_2; [done | lia..].
Qed.

(** C4. For every six-byte address [m], the 102-byte datagram made of six
    bytes [0xFF] and sixteen copies of [m] is accepted by
    [isValidWOLPacket] for the target [m], and rejected for every other
    six-byte target. *)
Theorem magic_packet_valid_for_own_target_only m m' :
  length m = 6 → length m' = 6 →
  length (magic_packet m) = 102 ∧
  isValidWOLPacket (magic_packet m) m = Done true ∧
  (m' ≠ m → isValidWOLPacket (magic_packet m) m' = Done false).
Proof.
  intros Hm Hm'. split; [by apply length_magic_packet |].
  rewrite !isValidWOLPacket_spec by lia.
  rewrite !take_ge by lia. split.
  - by rewrite bool_decide_eq_true_2.
  - intros Hne. rewrite bool_decide_eq_false_2; [done |].
    intros Heq. apply Hne. symmetry. by apply magic_packet_inj.
Qed.

(** C6. Changing any single byte of a 102-byte datagram that is valid for
    a six-byte target makes [isValidWOLPacket] return [false] for that
    target. *)
Theorem single_byte_mutation_rejected data m (i : nat) (b : byte) :
  length data = 102 → length m = 6 →
  isValidWOLPacket data m = Done true →
  i < 102 → data !! i ≠ Some b →
  isValidWOLPacket (<[i:=b]> data) m = Done false.
Proof.
  intros Hd Hm Hvalid Hi Hb.
  rewrite isValidWOLPacket_spec in Hvalid |- * by lia.
  injection Hvalid as Hvalid. apply bool_decide_eq_true_1 in Hvalid.
  rewrite bool_decide_eq_false_2; [done |].
  rewrite <-Hvalid. intros Heq. apply Hb.
  rewrite <-Heq at 1. apply list_lookup_insert_eq. lia.
Qed.

(** The buffer keeps its length over an iteration of the receive loop. *)
Lemma receive_iteration_length buffer input targetMAC :
  length (receive_iteration buffer input targetMAC).1 = length buffer.
Proof.
  destruct input as [err|datagram]; [done |]. cbn.
  rewrite length_app, length_take, length_drop. lia.
Qed.

Lemma trigger_condition_ReadFromUDP buffer datagram targetMAC :
  length buffer = 1024 → length targetMAC = 6 →
  (receive_iteration buffer (Recv datagram) targetMAC).2 =
    Done (bool_decide (102 ≤ length datagram ∧
                       take 102 datagram = magic_packet targetMAC)).
Proof.
  intros Hb Ht. unfold receive_iteration, ReadFromUDP, trigger_condition.
  cbn [snd]. rewrite Hb.
  destruct (decide (102 ≤ length datagram `min` 1024)) as [Hn|Hn].
  - unfold slice_to, slice.
    rewrite decide_True
      by (rewrite length_app, length_take, length_drop; lia).
    rewrite isValidWOLPacket_spec, (take_ge targetMAC) by lia.
    rewrite Nat.sub_0_r, drop_0, take_app_le by (rewrite length_take; lia).
    rewrite take_take, Nat.min_l by lia.
    f_equal. apply bool_decide_ext. split; [intros; split; [lia | done] | tauto].
  - rewrite bool_decide_eq_false_2; [done | lia].
Qed.

(** C5. In the receive loop a datagram triggers the power-on exactly when
    it has at least 102 bytes and its first 102 bytes are the magic
    packet of the six-byte target (six bytes [0xFF], then sixteen copies
    of the target): whatever the buffer held before, a shorter datagram
    is rejected, and two datagrams that agree on their first 102 bytes
    are treated alike. *)
Theorem udp_trigger_decision buffer datagram targetMAC :
  length buffer = 1024 → length targetMAC = 6 →
  let fires := (receive_iteration buffer (Recv datagram) targetMAC).2 in
  (fires = Done true ∨ fires = Done false) ∧
  (fires = Done true ↔
     102 ≤ length datagram ∧
     take 102 datagram = magic_packet targetMAC) ∧
  (length datagram < 102 → fires = Done false) ∧
  (∀ buffer' datagram',
     length buffer' = 1024 →
     102 ≤ length datagram → 102 ≤ length datagram' →
     take 102 datagram' = take 102 datagram →
     (receive_iteration buffer' (Recv datagram') targetMAC).2 = fires).
Proof.
  intros Hb Ht fires. subst fires.
  rewrite trigger_condition_ReadFromUDP by done.
  split; [| split; [| split]].
  - destruct (bool_decide _); auto.
  - split.
    + by intros [= Hv%bool_decide_eq_true_1].
    + intros Hv. f_equal. by apply bool_decide_eq_true_2.
  - intros Hlen. f_equal. apply bool_decide_eq_false_2. lia.
  - intros buffer' datagram' Hb' Hlen Hlen' Heq.
    rewrite trigger_condition_ReadFromUDP by done. f_equal.
    apply bool_decide_ext. rewrite Heq. tauto.
Qed.

End validator.

(** ** The address parser *)

Section parser.
Import MAC.
Implicit Types (s : list byte).

(** Loop invariants for [for_upto]: with at least [n - i] iterations
    allowed, the loop runs until [i] reaches [n], so the iteration bound
    in its definition is never what stops it. *)
Lemma for_upto_fuel_inv {E S} (I : nat → S → Prop) (Q : E → Prop)
    (body : nat → S → outcome E S) (n d : nat) :
  0 < d →
  (∀ i st, i < n → I i st →
     match body i st with
     | Done st' => I (i + d) st'
     | Failed e => Q e
     | Panic => False
     end) →
  ∀ fuel i st, n - i ≤ fuel → I i st →
    match for_upto_fuel fuel i n d body st with
    | Done st' => ∃ i', n ≤ i' ∧ I i' st'
    | Failed e => Q e
    | Panic => False
    end.
Proof.
  intros Hd Hbody. induction fuel as [|fuel IH]; intros i st Hfuel HI.
  - exists i. split; [lia | done].
  - cbn [for_upto_fuel]. destruct (decide (i < n)) as [Hi|Hi].
    + specialize (Hbody i st Hi HI).
      destruct (body i st) as [st'| |]; [| done..].
      apply IH; [lia | done].
    + exists i. split; [lia | done].
Qed.

Lemma for_upto_inv {E S} (I : nat → S → Prop) (Q : E → Prop)
    (body : nat → S → outcome E S) (i n d : nat) (st : S) :
  0 < d →
  (∀ i st, i < n → I i st →
     match body i st with
     | Done st' => I (i + d) st'
     | Failed e => Q e
     | Panic => False
     end) →
  I i st →
  match for_upto i n d body st with
  | Done st' => ∃ i', n ≤ i' ∧ I i' st'
  | Failed e => Q e
  | Panic => False
  end.
Proof. intros. by eapply for_upto_fuel_inv. Qed.

Lemma index_Done {E A} (l : list A) (i : nat) :
  i < length l → ∃ c, index (E:=E) l i = Done c.
Proof.
  intros Hi. unfold index.
  destruct (lookup_lt_is_Some_2 l i Hi) as [c ->]. by exists c.
Qed.

Lemma slice_Done {E A} (l : list A) (lo hi : nat) :
  lo ≤ hi → hi ≤ length l →
  slice (E:=E) l lo hi = Done (take (hi - lo) (drop lo l)).
Proof. intros. unfold slice. by rewrite decide_True. Qed.

Lemma store_Done {E A} (l : list A) (i : nat) (v : A) :
  i < length l → store (E:=E) l i v = Done (<[i:=v]> l).
Proof. intros. unfold store. by rewrite decide_True. Qed.

(** [xtoi2] does not panic on a string of at least two bytes. *)
Lemma xtoi2_total s (e : byte) :
  2 ≤ length s → ∃ b ok, xtoi2 s e = Done (b, ok).
Proof.
  intros Hs. unfold xtoi2.
  assert (∀ k : list byte → outcome AddrError (byte * bool),
            (∀ s2, ∃ b ok, k s2 = Done (b, ok)) →
            ∃ b ok, (slice_to s 2 ≫= k) = Done (b, ok)) as Hrest.
  { intros k Hk. unfold slice_to. rewrite slice_Done by lia. apply Hk. }
  destruct (decide (2 < length s)) as [Hlt|Hlt].
  - destruct (index_Done (E:=AddrError) s 2 Hlt) as [c ->]. cbn.
    destruct (bool_decide (c ≠ e)); [eauto |].
    apply Hrest. intros s2. destruct (xtoi s2) as [[n ei] ok]. eauto.
  - cbn. apply Hrest. intros s2. destruct (xtoi s2) as [[n ei] ok]. eauto.
Qed.

Ltac bind_step := unfold mbind at 1, outcome_bind at 1; cbn beta iota.

Lemma colon_body_inv s (sep : byte) (n i : nat) (st : nat * list byte) :
  length s + 1 = 3 * n → i < n →
  st.1 = 3 * i ∧ length st.2 = n →
  match colon_body s sep i st with
  | Done st' => st'.1 = 3 * (i + 1) ∧ length st'.2 = n
  | Failed e => e = invalid s
  | Panic => False
  end.
Proof.
  intros Hs Hi. destruct st as [x hw]. cbn [fst snd]. intros [-> Hhw].
  unfold colon_body, slice_from. rewrite slice_Done by lia. bind_step.
  destruct (xtoi2_total (take (length s - 3 * i) (drop (3 * i) s)) sep)
    as (b & ok & ->).
  { rewrite length_take, length_drop. lia. }
  bind_step. rewrite store_Done by lia. bind_step.
  destruct ok; [| reflexivity]. cbn. rewrite length_insert. lia.
Qed.

Lemma dot_body_inv s (sep : byte) (h i : nat) (st : nat * list byte) :
  length s + 1 = 5 * h → i < 2 * h →
  (∃ k, i = 2 * k ∧ st.1 = 5 * k) ∧ length st.2 = 2 * h →
  match dot_body s sep i st with
  | Done st' => (∃ k, i + 2 = 2 * k ∧ st'.1 = 5 * k) ∧ length st'.2 = 2 * h
  | Failed e => e = invalid s
  | Panic => False
  end.
Proof.
  intros Hs Hi. destruct st as [x hw]. cbn [fst snd].
  intros [(k & -> & ->) Hhw].
  unfold dot_body, slice_from.
  rewrite (slice_Done s (5 * k)), (slice_Done s (5 * k + 2)) by lia. bind_step.
  destruct (xtoi2_total (take (5 * k + 2 - 5 * k) (drop (5 * k) s)) Byte.x00)
    as (b & ok & ->).
  { rewrite length_take, length_drop. lia. }
  bind_step. rewrite (store_Done hw (2 * k)) by lia. bind_step.
  destruct ok; [| reflexivity]. bind_step.
  destruct (xtoi2_total (take (length s - (5 * k + 2)) (drop (5 * k + 2) s)) sep)
    as (b' & ok' & ->).
  { rewrite length_take, length_drop. lia. }
  bind_step. rewrite store_Done by (rewrite length_insert; lia).
  bind_step. destruct ok'; [| reflexivity]. cbn.
  rewrite !length_insert. split; [exists (k + 1); lia | done].
Qed.

(** [net.ParseMAC] never panics; it fails with its [AddrError] or yields
    6, 8 or 20 bytes, as many as the text has octets. *)
Lemma ParseMAC_result s :
  match ParseMAC s with
  | Done hw =>
      (length hw = 6 ∨ length hw = 8 ∨ length hw = 20) ∧
      (length s + 1 = 3 * length hw ∨ 2 * (length s + 1) = 5 * length hw)
  | Failed e => e = invalid s
  | Panic => False
  end.
Proof.
  unfold ParseMAC. case_decide as Hlen; [reflexivity |].
  destruct (index_Done (E:=AddrError) s 2 ltac:(lia)) as [s2 ->]. bind_step.
  case_decide as Hsep.
  - case_decide as Hmod; [reflexivity |].
    pose proof (Nat.div_mod_eq (length s + 1) 3) as Hdiv.
    set (n := (length s + 1) `div` 3) in *.
    case_decide as Hn; [reflexivity |].
    assert (n = 6 ∨ n = 8 ∨ n = 20) as Hn' by lia.
    opose proof* (for_upto_inv
      (λ i (st : nat * list byte), st.1 = 3 * i ∧ length st.2 = n)
      (λ e, e = invalid s) (colon_body s s2) 0 n 1 (0, replicate n Byte.x00))
      as Hloop.
    { lia. }
    { intros i st ? ?. apply colon_body_inv; [lia | done..]. }
    { cbn. by rewrite length_replicate. }
    destruct (for_upto _ _ _ _ _) as [[x hw]| |]; bind_step; [| done..].
    destruct Hloop as (i' & _ & _ & Hhw). cbn [snd] in Hhw.
    unfold mret, outcome_ret. lia.
  - destruct (index_Done (E:=AddrError) s 4 ltac:(lia)) as [s4 ->]. bind_step.
    case_decide as Hdot; [| reflexivity].
    case_decide as Hmod; [reflexivity |].
    pose proof (Nat.div_mod_eq (length s + 1) 5) as Hdiv.
    set (h := (length s + 1) `div` 5) in *.
    assert ((2 * (length s + 1)) `div` 5 = 2 * h) as ->.
    { replace (2 * (length s + 1)) with (2 * h * 5) by lia.
      apply Nat.div_mul. lia. }
    case_decide as Hn; [reflexivity |].
    opose proof* (for_upto_inv
      (λ i (st : nat * list byte),
         (∃ k, i = 2 * k ∧ st.1 = 5 * k) ∧ length st.2 = 2 * h)
      (λ e, e = invalid s) (dot_body s s4) 0 (2 * h) 2
      (0, replicate (2 * h) Byte.x00)) as Hloop.
    { lia. }
    { intros i st ? ?. apply dot_body_inv; [lia | done..]. }
    { cbn. rewrite length_replicate. split; [exists 0; lia | done]. }
    destruct (for_upto _ _ _ _ _) as [[x hw]| |]; bind_step; [| done..].
    destruct Hloop as (i' & _ & _ & Hhw). cbn [snd] in Hhw.
    unfold mret, outcome_ret. lia.
Qed.

Lemma ReplaceAll_byte_length s (a b : byte) :
  length (ReplaceAll s [a] [b]) = length s.
Proof.
  unfold ReplaceAll. induction s as [|c s IH]; [done |].
  cbn [ReplaceAll_from length Nat.sub]. case_decide; cbn; by rewrite IH.
Qed.

(** [parseMAC] never panics; it fails with the parser's error or yields
    6, 8 or 20 bytes, as many as the text has octets. *)
Lemma parseMAC_result macStr :
  match parseMAC macStr with
  | Done hw =>
      (length hw = 6 ∨ length hw = 8 ∨ length hw = 20) ∧
      (length macStr + 1 = 3 * length hw ∨
       2 * (length macStr + 1) = 5 * length hw)
  | Failed e => e = invalid (ReplaceAll macStr (str "-") (str ":"))
  | Panic => False
  end.
Proof.
  unfold parseMAC.
  pose proof (ParseMAC_result (ReplaceAll macStr (str "-") (str ":"))) as H.
  destruct (ParseMAC _); [| done..].
  change (str "-") with ["-"%byte] in H. change (str ":") with [":"%byte] in H.
  by rewrite ReplaceAll_byte_length in H.
Qed.

Lemma parseMAC_length_ge_6 macStr hw :
  parseMAC macStr = Done hw → 6 ≤ length hw.
Proof.
  intros H. pose proof (parseMAC_result macStr) as Hr.
  rewrite H in Hr. lia.
Qed.

(** The two spellings of the flag's help text give the same address. *)
Example parseMAC_hyphens_and_colons :
  parseMAC (str "00-11-22-33-44-55") = Done WOL.mac_a ∧
  parseMAC (str "00:11:22:33:44:55") = Done WOL.mac_a.
Proof. split; by vm_compute. Qed.



End parser.

(** ** The validator on the addresses [parseMAC] yields *)

Section validator_bounds.
Import WOL MAC.

(** C10. On a target of at least six bytes (as every address [parseMAC]
    accepts is, also one of 8 or 20 bytes) [isValidWOLPacket] returns
    without a panic, reads [data] only in bounds and only when its length
    is 102, reads only the first six bytes of the target, and returns
    what it returns for the target's six-byte prefix. *)
Theorem isValidWOLPacket_reads_six_byte_prefix (data targetMAC : list byte) :
  6 ≤ length targetMAC ∨ (∃ macStr, parseMAC macStr = Done targetMAC) →
  (isValidWOLPacket data targetMAC = Done true ∨
   isValidWOLPacket data targetMAC = Done false) ∧
  Forall (in_bounds data targetMAC) (isValidWOLPacket_reads data targetMAC) ∧
  Forall (read_ok data) (isValidWOLPacket_reads data targetMAC) ∧
  isValidWOLPacket data targetMAC = isValidWOLPacket data (take 6 targetMAC).
Proof.
  intros H.
  assert (6 ≤ length targetMAC) as Ht.
  { destruct H as [|[macStr H]]; [done |]. by eapply parseMAC_length_ge_6. }
  pose proof (isValidWOLPacket_reads_ok data targetMAC) as Hreads.
  split; [| split; [| split]].
  - rewrite isValidWOLPacket_spec by done. destruct (bool_decide _); auto.
  - eapply Forall_impl; [exact Hreads |].
    intros [i|j]; simpl; lia.
  - exact Hreads.
  - rewrite !isValidWOLPacket_spec by (rewrite ?length_take; lia).
    by rewrite take_take.
Qed.

End validator_bounds.

(** ** The orchestration *)

Section orchestration.
Import IPMI.
Context {W : Type} (bmc : Controller W).
Implicit Types (host username password : string) (port : Z) (w : W).

Ltac run_unfold :=
  unfold run_sendIPMIPowerOn, sendIPMIPowerOn, defer, Println, call, emit;
  unfold mbind, M_bind, mret, M_ret; cbn beta iota.

(** The six ways through [sendIPMIPowerOn], by what the controller
    answers: the returned [error] and the whole trace of each. *)
Lemma run_client_error host username password port w err w1 :
  NewClient bmc host port username password w = (Some err, w1) →
  run_sendIPMIPowerOn bmc host username password port w =
    (Some (Errorf "failed to create IPMI client: " err),
     [CalledNewClient host port username password]).
Proof. intros Hnew. run_unfold. rewrite Hnew. reflexivity. Qed.

Lemma run_connect_error host username password port w w1 err w2 :
  NewClient bmc host port username password w = (None, w1) →
  Connect bmc (configured bmc w1) = (Some err, w2) →
  run_sendIPMIPowerOn bmc host username password port w =
    (Some (Errorf "failed to establish session: " err),
     client_setup host username password port ++
     [CalledConnect false; CalledCancel]).
Proof.
  intros Hnew Hconn. unfold configured in Hconn.
  run_unfold. rewrite Hnew. cbn beta iota. rewrite Hconn. reflexivity.
Qed.

Lemma run_status_error host username password port w w1 w2 err w3 :
  NewClient bmc host port username password w = (None, w1) →
  Connect bmc (configured bmc w1) = (None, w2) →
  GetChassisStatus bmc w2 = (inl err, w3) →
  run_sendIPMIPowerOn bmc host username password port w =
    (Some (Errorf "failed to get chassis status: " err),
     client_setup host username password port ++
     [CalledConnect true; Printed (line_connected host);
      CalledGetChassisStatus None; CalledClose; CalledCancel]).
Proof.
  intros Hnew Hconn Hstatus. unfold configured in Hconn.
  run_unfold. rewrite Hnew. cbn beta iota. rewrite Hconn. cbn beta iota.
  rewrite Hstatus. cbn beta iota. destruct (Close bmc w3). reflexivity.
Qed.

Lemma run_already_on host username password port w w1 w2 w3 :
  NewClient bmc host port username password w = (None, w1) →
  Connect bmc (configured bmc w1) = (None, w2) →
  GetChassisStatus bmc w2 = (inr true, w3) →
  run_sendIPMIPowerOn bmc host username password port w =
    (None,
     client_setup host username password port ++
     [CalledConnect true; Printed (line_connected host);
      CalledGetChassisStatus (Some true); Printed line_already_on;
      CalledClose; CalledCancel]).
Proof.
  intros Hnew Hconn Hstatus. unfold configured in Hconn.
  run_unfold. rewrite Hnew. cbn beta iota. rewrite Hconn. cbn beta iota.
  rewrite Hstatus. cbn beta iota. destruct (Close bmc w3). reflexivity.
Qed.

Lemma run_power_on_sent host username password port w w1 w2 w3 w4 :
  NewClient bmc host port username password w = (None, w1) →
  Connect bmc (configured bmc w1) = (None, w2) →
  GetChassisStatus bmc w2 = (inr false, w3) →
  ChassisControl bmc ChassisControlPowerUp w3 = (None, w4) →
  run_sendIPMIPowerOn bmc host username password port w =
    (None,
     client_setup host username password port ++
     [CalledConnect true; Printed (line_connected host);
      CalledGetChassisStatus (Some false); Printed line_sending;
      CalledChassisControl ChassisControlPowerUp; Printed line_sent;
      CalledClose; CalledCancel]).
Proof.
  intros Hnew Hconn Hstatus Hctl. unfold configured in Hconn.
  run_unfold. rewrite Hnew. cbn beta iota. rewrite Hconn. cbn beta iota.
  rewrite Hstatus. cbn beta iota. rewrite Hctl. cbn beta iota.
  destruct (Close bmc w4). reflexivity.
Qed.

Lemma run_power_on_failed host username password port w w1 w2 w3 err w4 :
  NewClient bmc host port username password w = (None, w1) →
  Connect bmc (configured bmc w1) = (None, w2) →
  GetChassisStatus bmc w2 = (inr false, w3) →
  ChassisControl bmc ChassisControlPowerUp w3 = (Some err, w4) →
  run_sendIPMIPowerOn bmc host username password port w =
    (Some (Errorf "failed to send Power Up command: " err),
     client_setup host username password port ++
     [CalledConnect true; Printed (line_connected host);
      CalledGetChassisStatus (Some false); Printed line_sending;
      CalledChassisControl ChassisControlPowerUp;
      CalledClose; CalledCancel]).
Proof.
  intros Hnew Hconn Hstatus Hctl. unfold configured in Hconn.
  run_unfold. rewrite Hnew. cbn beta iota. rewrite Hconn. cbn beta iota.
  rewrite Hstatus. cbn beta iota. rewrite Hctl. cbn beta iota.
  destruct (Close bmc w4). reflexivity.
Qed.

(** C1. When the session is established and the status query reports
    power ON, [sendIPMIPowerOn] returns [nil] (the outcome
    [NoActionAlreadyOn]) and sends no power-on command. *)
Theorem already_on_is_a_no_op host username password port w w2 w3 :
  session_established bmc host username password port w w2 →
  GetChassisStatus bmc w2 = (inr true, w3) →
  let r := run_sendIPMIPowerOn bmc host username password port w in
  r.1 = None ∧
  outcome_of r = Some NoActionAlreadyOn ∧
  count is_power_on_command r.2 = 0.
Proof.
  intros (w1 & Hnew & Hconn) Hstatus r. subst r.
  rewrite (run_already_on _ _ _ _ _ _ _ _ Hnew Hconn Hstatus).
  split; [done |]. split; reflexivity.
Qed.






(** C3. When session establishment fails, [sendIPMIPowerOn] returns an
    error (the outcome [QueryFailed]) without a status query, without a
    power-on command and without a second attempt to connect. *)
Theorem session_failure_is_query_failed host username password port w :
  session_fails bmc host username password port w →
  let r := run_sendIPMIPowerOn bmc host username password port w in
  (∃ err, r.1 = Some err) ∧
  outcome_of r = Some QueryFailed ∧
  count is_status_query r.2 = 0 ∧
  count is_power_on_command r.2 = 0 ∧
  count is_connect r.2 ≤ 1.
Proof.
  intros [(err & w1 & Hnew) | (w1 & err & w2 & Hnew & Hconn)] r; subst r.
  - rewrite (run_client_error _ _ _ _ _ _ _ Hnew).
    split; [by eexists |]. repeat split; vm_compute; lia.
  - rewrite (run_connect_error _ _ _ _ _ _ _ _ Hnew Hconn).
    split; [by eexists |]. repeat split; vm_compute; lia.
Qed.


End orchestration.

(** ** Configuration *)

Section configuration.
Import Config.
Implicit Types (args env : gmap string string).

(** For the host, the user name and the password a flag that is given
    (and not empty) wins over the environment. *)
Lemma resolve_host_flag_wins args env (v : string) :
  args !! "host" = Some v → v ≠ "" → finalHost (resolve args env) = v.
Proof.
  intros Hflag Hv. unfold resolve, flag_String. cbn [finalHost].
  rewrite Hflag. cbn [default from_option id]. by rewrite decide_False.
Qed.

(** For the target address the environment wins, whatever [-mac] says. *)
Lemma resolve_mac_environment_wins args env (v : string) :
  env !! "WOL_MAC" = Some v → v ≠ "" → finalMAC (resolve args env) = v.
Proof.
  intros Henv Hv. unfold resolve, getEnvOrDefault, Getenv. cbn [finalMAC].
  rewrite Henv. cbn [default from_option id].
  destruct (decide (v ≠ "")) as [_|]; [| done]. by rewrite decide_True.
Qed.

(** C8, at the failing input. With [-mac aa:bb:cc:dd:ee:ff] on the
    command line and [WOL_MAC=11:22:33:44:55:66] in the environment,
    [main] listens for the address of the environment, not for the one of
    the flag; with [-host 10.0.0.1] and [IPMI_HOST=10.0.0.2] it talks to
    the host of the flag. *)
Theorem mac_flag_overridden_by_environment :
  finalMAC (resolve {["mac" := "aa:bb:cc:dd:ee:ff"]}
                    {["WOL_MAC" := "11:22:33:44:55:66"]})
    = "11:22:33:44:55:66" ∧
  finalHost (resolve {["host" := "10.0.0.1"]} {["IPMI_HOST" := "10.0.0.2"]})
    = "10.0.0.1".
Proof.
  split.
  - apply resolve_mac_environment_wins; [apply lookup_singleton_eq | done].
  - apply resolve_host_flag_wins; [apply lookup_singleton_eq | done].
Qed.

End configuration.

(** ** The theorems at concrete inputs *)

Section witnesses.
Import WOL MAC IPMI.

Lemma already_on_is_a_no_op_witness :
  session_established (sample_bmc None None) "10.0.0.1" "admin" "admin" 623
    true true ∧
  GetChassisStatus (sample_bmc None None) true = (inr true, true) ∧
  (run_sendIPMIPowerOn (sample_bmc None None) "10.0.0.1" "admin" "admin" 623
     true).1 = None ∧
  outcome_of (run_sendIPMIPowerOn (sample_bmc None None)
                "10.0.0.1" "admin" "admin" 623 true)
    = Some NoActionAlreadyOn ∧
  count is_power_on_command
    (run_sendIPMIPowerOn (sample_bmc None None)
       "10.0.0.1" "admin" "admin" 623 true).2 = 0.
Proof.
  assert (session_established (sample_bmc None None)
            "10.0.0.1" "admin" "admin" 623 true true) as Hs
    by (exists true; split; reflexivity).
  split; [exact Hs |]. split; [reflexivity |].
  exact (already_on_is_a_no_op (sample_bmc None None)
           "10.0.0.1" "admin" "admin" 623 true true true Hs eq_refl).
Defined.


Lemma session_failure_is_query_failed_witness :
  session_fails (sample_bmc (Some "timeout") None)
    "10.0.0.1" "admin" "admin" 623 false ∧
  (∃ err, (run_sendIPMIPowerOn (sample_bmc (Some "timeout") None)
             "10.0.0.1" "admin" "admin" 623 false).1 = Some err) ∧
  outcome_of (run_sendIPMIPowerOn (sample_bmc (Some "timeout") None)
                "10.0.0.1" "admin" "admin" 623 false)
    = Some QueryFailed ∧
  count is_status_query
    (run_sendIPMIPowerOn (sample_bmc (Some "timeout") None)
       "10.0.0.1" "admin" "admin" 623 false).2 = 0 ∧
  count is_power_on_command
    (run_sendIPMIPowerOn (sample_bmc (Some "timeout") None)
       "10.0.0.1" "admin" "admin" 623 false).2 = 0 ∧
  count is_connect
    (run_sendIPMIPowerOn (sample_bmc (Some "timeout") None)
       "10.0.0.1" "admin" "admin" 623 false).2 ≤ 1.
Proof.
  assert (session_fails (sample_bmc (Some "timeout") None)
            "10.0.0.1" "admin" "admin" 623 false) as Hf
    by (right; exists false, "timeout", false; split; reflexivity).
  split; [exact Hf |].
  exact (session_failure_is_query_failed (sample_bmc (Some "timeout") None)
           "10.0.0.1" "admin" "admin" 623 false Hf).
Defined.


Lemma magic_packet_valid_for_own_target_only_witness :
  length mac_a = 6 ∧ length mac_b = 6 ∧
  length (magic_packet mac_a) = 102 ∧
  isValidWOLPacket (magic_packet mac_a) mac_a = Done true ∧
  (mac_b ≠ mac_a → isValidWOLPacket (magic_packet mac_a) mac_b = Done false).
Proof.
  split; [reflexivity |]. split; [reflexivity |].
  exact (magic_packet_valid_for_own_target_only mac_a mac_b eq_refl eq_refl).
Defined.

Lemma udp_trigger_decision_witness :
  length initial_buffer = 1024 ∧ length mac_a = 6 ∧
  102 ≤ length (magic_packet mac_a ++ [Byte.x01; Byte.x02]) ∧
  take 102 (magic_packet mac_a ++ [Byte.x01; Byte.x02]) = magic_packet mac_a ∧
  (receive_iteration initial_buffer
     (Recv (magic_packet mac_a ++ [Byte.x01; Byte.x02])) mac_a).2 = Done true.
Proof.
  split; [reflexivity |]. split; [reflexivity |].
  split; [vm_compute; lia |]. split; [reflexivity |].
  destruct (udp_trigger_decision initial_buffer
              (magic_packet mac_a ++ [Byte.x01; Byte.x02]) mac_a
              eq_refl eq_refl) as (_ & Hiff & _).
  apply Hiff. split; [vm_compute; lia | reflexivity].
Defined.

Lemma single_byte_mutation_rejected_witness :
  length (magic_packet mac_a) = 102 ∧ length mac_a = 6 ∧
  isValidWOLPacket (magic_packet mac_a) mac_a = Done true ∧
  3 < 102 ∧ magic_packet mac_a !! 3 ≠ Some Byte.x00 ∧
  isValidWOLPacket (<[3:=Byte.x00]> (magic_packet mac_a)) mac_a = Done false.
Proof.
  assert (magic_packet mac_a !! 3 ≠ Some Byte.x00) as Hne by (by vm_compute).
  split; [reflexivity |]. split; [reflexivity |]. split; [reflexivity |].
  split; [lia |]. split; [exact Hne |].
  exact (single_byte_mutation_rejected (magic_packet mac_a) mac_a 3 Byte.x00
           eq_refl eq_refl eq_refl ltac:(lia) Hne).
Defined.

Lemma isValidWOLPacket_reads_six_byte_prefix_witness :
  parseMAC (str "00:11:22:33:44:55:66:77") = Done (mac_a ++ [Byte.x66; Byte.x77]) ∧
  isValidWOLPacket (magic_packet mac_a) (mac_a ++ [Byte.x66; Byte.x77])
    = isValidWOLPacket (magic_packet mac_a)
        (take 6 (mac_a ++ [Byte.x66; Byte.x77])) ∧
  Forall (read_ok (magic_packet mac_a))
    (isValidWOLPacket_reads (magic_packet mac_a)
       (mac_a ++ [Byte.x66; Byte.x77])).
Proof.
  assert (parseMAC (str "00:11:22:33:44:55:66:77")
          = Done (mac_a ++ [Byte.x66; Byte.x77])) as Hparse by (by vm_compute).
  split; [exact Hparse |].
  destruct (isValidWOLPacket_reads_six_byte_prefix (magic_packet mac_a)
              (mac_a ++ [Byte.x66; Byte.x77])
              (or_intror (ex_intro _ _ Hparse))) as (_ & _ & Hreads & Hprefix).
  split; [exact Hprefix | exact Hreads].
Defined.

End witnesses.

(** * Further properties of the program *)

(** ** Settings *)

Section settings.
Import Config.
Implicit Types (args env : gmap string string).

Lemma getEnvOrDefault_cases env (key defaultValue : string) :
  getEnvOrDefault env key defaultValue =
    match env !! key with
    | Some value => if decide (value = "") then defaultValue else value
    | None => defaultValue
    end.
Proof.
  unfold getEnvOrDefault, Getenv.
  destruct (env !! key) as [value|]; cbn [default from_option id]; [| done].
  by destruct (decide (value = "")); case_decide.
Qed.

Lemma getEnvOrDefault_nonempty env (key defaultValue : string) :
  defaultValue ≠ "" → getEnvOrDefault env key defaultValue ≠ "".
Proof.
  intros Hdefault. rewrite getEnvOrDefault_cases.
  destruct (env !! key) as [value|]; [| done]. by case_decide.
Qed.

(** X1. [getEnvOrDefault] treats a variable that is set to the empty
    string like one that is not set: both give the default; any other
    value is returned as it is. So the result is empty only if the
    default is. *)
Theorem getEnvOrDefault_empty_is_unset env (key defaultValue : string) :
  (env !! key = None ∨ env !! key = Some "" →
   getEnvOrDefault env key defaultValue = defaultValue) ∧
  (∀ value, env !! key = Some value → value ≠ "" →
   getEnvOrDefault env key defaultValue = value) ∧
  (defaultValue ≠ "" → getEnvOrDefault env key defaultValue ≠ "").
Proof.
  rewrite getEnvOrDefault_cases. split; [| split].
  - by intros [-> | ->].
  - intros value -> Hvalue. by rewrite decide_False.
  - rewrite <-getEnvOrDefault_cases. apply getEnvOrDefault_nonempty.
Qed.

(** X2. Whatever the flags and the environment, [main] arrives at a
    host, a user name and a password that are not empty: an empty flag
    falls back to the environment, an empty or missing variable to the
    built-in value. *)
Theorem resolve_credentials_never_empty args env :
  finalHost (resolve args env) ≠ "" ∧
  finalUsername (resolve args env) ≠ "" ∧
  finalPassword (resolve args env) ≠ "".
Proof.
  unfold resolve. cbn [finalHost finalUsername finalPassword].
  repeat split; case_decide; try done;
    by apply getEnvOrDefault_nonempty.
Qed.

(** X3. The host, the user name and the password are each the first of
    flag, environment variable and built-in value that is given and not
    empty; a flag or a variable given with an empty value counts as not
    given. *)
Theorem resolve_flag_then_environment_then_builtin args env :
  finalHost (resolve args env) =
    Precedence.first_nonempty [args !! "host"; env !! "IPMI_HOST"] "192.168.0.1" ∧
  finalUsername (resolve args env) =
    Precedence.first_nonempty [args !! "username"; env !! "IPMI_USERNAME"] "admin" ∧
  finalPassword (resolve args env) =
    Precedence.first_nonempty [args !! "password"; env !! "IPMI_PASSWORD"] "admin".
Proof.
  unfold resolve, flag_String. cbn [finalHost finalUsername finalPassword].
  rewrite !getEnvOrDefault_cases. cbn [Precedence.first_nonempty].
  repeat split.
  - destruct (args !! "host") as [flag|]; cbn [default from_option id];
      [by destruct (decide (flag = "")) | done].
  - destruct (args !! "username") as [flag|]; cbn [default from_option id];
      [by destruct (decide (flag = "")) | done].
  - destruct (args !! "password") as [flag|]; cbn [default from_option id];
      [by destruct (decide (flag = "")) | done].
Qed.

(** X4. The target address is the variable [WOL_MAC] when that is set and
    not empty, whatever [-mac] says; otherwise the value of [-mac] as it
    was given, even empty; otherwise [00:11:22:33:44:55]. *)
Theorem resolve_mac_environment_then_flag args env :
  finalMAC (resolve args env) =
    match env !! "WOL_MAC" with
    | Some value =>
        if decide (value = "")
        then default "00:11:22:33:44:55" (args !! "mac") else value
    | None => default "00:11:22:33:44:55" (args !! "mac")
    end.
Proof.
  unfold resolve, flag_String. cbn [finalMAC].
  rewrite getEnvOrDefault_cases.
  destruct (env !! "WOL_MAC") as [value|]; [| done].
  destruct (decide (value = "")); [done |]. by rewrite decide_True.
Qed.

End settings.

(** ** Orchestration from any trace *)

Section orchestration_anywhere.
Import IPMI Listener.
Context {W : Type} (bmc : Controller W).
Implicit Types (host username password : string) (port : Z) (w : W).

(** A call made later in a run does what a call from a fresh trace does,
    after what was there. *)
Lemma sendIPMIPowerOn_frame host username password port w tr :
  ∃ err w' tr',
    sendIPMIPowerOn bmc host username password port (w, tr)
      = (err, (w', tr ++ tr')) ∧
    run_sendIPMIPowerOn bmc host username password port w = (err, tr').
Proof.
  unfold run_sendIPMIPowerOn, sendIPMIPowerOn, defer, Println, call, emit;
    unfold mbind, M_bind, mret, M_ret; cbn beta iota.
  destruct (NewClient bmc host port username password w) as [[err|] w1].
  { by eexists _, _, _. }
  destruct (Connect bmc _) as [[err|] w2]; cbn beta iota.
  { eexists _, _, _. split; [by rewrite <-!app_assoc | done]. }
  destruct (GetChassisStatus bmc w2) as [[err|[|]] w3]; cbn beta iota.
  - destruct (Close bmc w3) as [? w4]; cbn beta iota.
    eexists _, _, _. split; [by rewrite <-!app_assoc | done].
  - destruct (Close bmc w3) as [? w4]; cbn beta iota.
    eexists _, _, _. split; [by rewrite <-!app_assoc | done].
  - destruct (ChassisControl bmc ChassisControlPowerUp w3) as [[err|] w4];
      cbn beta iota; destruct (Close bmc w4) as [? w5]; cbn beta iota;
      (eexists _, _, _; split; [by rewrite <-!app_assoc | done]).
Qed.

(** What every run has in common. *)
Lemma run_summary host username password port w :
  count is_new_client (run_sendIPMIPowerOn bmc host username password port w).2 = 1 ∧
  count is_power_on_command
    (run_sendIPMIPowerOn bmc host username password port w).2 ≤ 1 ∧
  session_open (run_sendIPMIPowerOn bmc host username password port w).2 = false.
Proof.
  destruct (NewClient bmc host port username password w)
    as [[err|] w1] eqn:Hnew.
  { rewrite (run_client_error _ _ _ _ _ _ _ _ Hnew). vm_compute. lia. }
  destruct (Connect bmc (configured bmc w1)) as [[err|] w2] eqn:Hconn.
  { rewrite (run_connect_error _ _ _ _ _ _ _ _ _ Hnew Hconn). vm_compute. lia. }
  destruct (GetChassisStatus bmc w2) as [[err|[|]] w3] eqn:Hstatus.
  - rewrite (run_status_error _ _ _ _ _ _ _ _ _ _ Hnew Hconn Hstatus).
    vm_compute. lia.
  - rewrite (run_already_on _ _ _ _ _ _ _ _ _ Hnew Hconn Hstatus).
    vm_compute. lia.
  - destruct (ChassisControl bmc ChassisControlPowerUp w3)
      as [[err|] w4] eqn:Hctl.
    + rewrite (run_power_on_failed _ _ _ _ _ _ _ _ _ _ _
                 Hnew Hconn Hstatus Hctl). vm_compute. lia.
    + rewrite (run_power_on_sent _ _ _ _ _ _ _ _ _ _
                 Hnew Hconn Hstatus Hctl). vm_compute. lia.
Qed.


End orchestration_anywhere.

(** ** Reading the power state *)

Section web.
Import IPMI Web Config.
Context {W : Type} (bmc : Controller W).
Implicit Types (host username password : string) (port : Z) (w : W).

Ltac exec_unfold :=
  unfold getPowerStatus, sendIPMIPowerOn, defer, Println, call, emit;
  unfold mbind, M_bind, mret, M_ret; cbn beta iota.

(** Every way through [getPowerStatus]: what it returns and what it adds
    to the trace. *)
Lemma getPowerStatus_run host username password port w tr :
  ∃ r w' tr',
    getPowerStatus bmc host username password port (w, tr)
      = (r, (w', tr ++ tr')) ∧
    ((∃ err, r = (false, Some (Errorf "failed to create IPMI client: " err)) ∧
             tr' = [CalledNewClient host port username password]) ∨
     (∃ err, r = (false, Some (Errorf "failed to establish session: " err)) ∧
             tr' = client_setup host username password port ++
                   [CalledConnect false; CalledCancel]) ∨
     (∃ err, r = (false, Some (Errorf "failed to get chassis status: " err)) ∧
             tr' = client_setup host username password port ++
                   [CalledConnect true; CalledGetChassisStatus None;
                    CalledClose; CalledCancel]) ∨
     (∃ PowerIsOn, r = (PowerIsOn, None) ∧
             tr' = client_setup host username password port ++
                   [CalledConnect true; CalledGetChassisStatus (Some PowerIsOn);
                    CalledClose; CalledCancel])).
Proof.
  exec_unfold.
  destruct (NewClient bmc host port username password w) as [[err|] w1].
  { eexists _, _, _. split; [reflexivity |]. left. by eexists. }
  destruct (Connect bmc _) as [[err|] w2]; cbn beta iota.
  { eexists _, _, _. split; [by rewrite <-!app_assoc |].
    right; left. by eexists. }
  destruct (GetChassisStatus bmc w2) as [[err|PowerIsOn] w3]; cbn beta iota;
    destruct (Close bmc w3) as [? w4]; cbn beta iota.
  - eexists _, _, _. split; [by rewrite <-!app_assoc |].
    right; right; left. by eexists.
  - eexists _, _, _. split; [by rewrite <-!app_assoc |].
    right; right; right. by eexists.
Qed.


(** X6. When the session is established and the controller answers the
    status query, [getPowerStatus] returns that answer with a [nil]
    error. *)
Theorem getPowerStatus_returns_answer host username password port w w2 w3
    (PowerIsOn : bool) :
  session_established bmc host username password port w w2 →
  GetChassisStatus bmc w2 = (inr PowerIsOn, w3) →
  (getPowerStatus bmc host username password port (w, [])).1 = (PowerIsOn, None).
Proof.
  intros (w1 & Hnew & Hconn) Hstatus. unfold configured in Hconn.
  exec_unfold. rewrite Hnew. cbn beta iota. rewrite Hconn. cbn beta iota.
  rewrite Hstatus. cbn beta iota. by destruct (Close bmc w3).
Qed.

Lemma webHandler_run env w :
  let host := getEnvOrDefault env "IPMI_HOST" "192.168.0.1" in
  let username := getEnvOrDefault env "IPMI_USERNAME" "admin" in
  let password := getEnvOrDefault env "IPMI_PASSWORD" "admin" in
  ∃ r w' tr',
    getPowerStatus bmc host username password 623 (w, []) = (r, (w', tr')) ∧
    webHandler bmc env (w, []) =
      (match r.2 with
       | Some err =>
           ({| Host := host; Status := "Unknown"; IsPowered := false |},
            ["Error getting power status: " +:+ err])
       | None =>
           ({| Host := host; Status := getStatusString r.1; IsPowered := r.1 |},
            [])
       end, (w', tr')).
Proof.
  intros host username password. unfold webHandler.
  fold host username password.
  unfold mbind at 1, M_bind at 1.
  destruct (getPowerStatus bmc host username password 623 (w, []))
    as [[isPowered err] [w' tr']].
  exists (isPowered, err), w', tr'. split; [done |]. by destruct err.
Qed.

(** X7. The page of [webHandler] shows [ON], [OFF] or [Unknown]; it shows
    [ON] exactly when [IsPowered] holds; [Unknown] exactly when an error
    was logged, and then the page reloads itself; the [Power ON] form is
    offered unless the page shows [ON], and the status box is styled
    after what is shown. Serving the page never sends a
    power-up command. *)
Theorem webHandler_page_is_consistent env w :
  let '((data, logged), (_, tr)) := webHandler bmc env (w, []) in
  (Status data = "ON" ∨ Status data = "OFF" ∨ Status data = "Unknown") ∧
  (IsPowered data = true ↔ Status data = "ON") ∧
  (logged ≠ [] ↔ Status data = "Unknown") ∧
  (reloads_itself data = true ↔ Status data = "Unknown") ∧
  (offers_power_on data = true ↔ Status data ≠ "ON") ∧
  status_class data =
    (if IsPowered data then "on"
     else if reloads_itself data then "unknown" else "off") ∧
  count is_power_on_command tr = 0.
Proof.
  destruct (webHandler_run env w) as (r & w' & tr' & Hstatus & ->).
  assert (count is_power_on_command tr' = 0) as Hcount.
  { destruct (getPowerStatus_run
                (getEnvOrDefault env "IPMI_HOST" "192.168.0.1")
                (getEnvOrDefault env "IPMI_USERNAME" "admin")
                (getEnvOrDefault env "IPMI_PASSWORD" "admin") 623 w [])
      as (r0 & w0 & tr0 & Hrun & Hcases).
    rewrite Hstatus in Hrun. injection Hrun as _ _ ->. cbn [app].
    destruct Hcases as [(err & _ & ->) | [(err & _ & ->) |
                       [(err & _ & ->) | (PowerIsOn & _ & ->)]]];
      by vm_compute. }
  destruct r as [isPowered [err|]]; [| destruct isPowered];
    cbn; unfold reloads_itself, offers_power_on; cbn;
    repeat split; try done; try (intros; exact Hcount); auto.
Qed.

(** X8. When the session is established and the controller answers the
    status query, the page shows that answer for the host taken from the
    environment, and nothing is logged. *)
Theorem webHandler_shows_answer env w w2 w3 (PowerIsOn : bool) :
  session_established bmc
    (getEnvOrDefault env "IPMI_HOST" "192.168.0.1")
    (getEnvOrDefault env "IPMI_USERNAME" "admin")
    (getEnvOrDefault env "IPMI_PASSWORD" "admin") 623 w w2 →
  GetChassisStatus bmc w2 = (inr PowerIsOn, w3) →
  (webHandler bmc env (w, [])).1 =
    ({| Host := getEnvOrDefault env "IPMI_HOST" "192.168.0.1";
        Status := if PowerIsOn then "ON" else "OFF";
        IsPowered := PowerIsOn |}, []).
Proof.
  intros (w1 & Hnew & Hconn) Hanswer. unfold configured in Hconn.
  destruct (webHandler_run env w) as (r & w' & tr' & Hstatus & ->).
  revert Hstatus. exec_unfold. rewrite Hnew. cbn beta iota.
  rewrite Hconn. cbn beta iota. rewrite Hanswer. cbn beta iota.
  destruct (Close bmc w3). by intros [= <- _ _].
Qed.


Lemma powerOnHandler_run env w :
  let run := run_sendIPMIPowerOn bmc
               (getEnvOrDefault env "IPMI_HOST" "192.168.0.1")
               (getEnvOrDefault env "IPMI_USERNAME" "admin")
               (getEnvOrDefault env "IPMI_PASSWORD" "admin") 623 w in
  ∃ w',
    powerOnHandler bmc env "POST" (w, []) =
      (match run.1 with
       | Some err => HttpError ("Error powering on: " +:+ err) 500
       | None => HttpRedirect "/" 303
       end, (w', run.2)).
Proof.
  intros run. subst run. unfold powerOnHandler, MethodPost.
  rewrite decide_False by (intros H; by apply H).
  destruct (sendIPMIPowerOn_frame bmc
              (getEnvOrDefault env "IPMI_HOST" "192.168.0.1")
              (getEnvOrDefault env "IPMI_USERNAME" "admin")
              (getEnvOrDefault env "IPMI_PASSWORD" "admin") 623 w [])
    as (err & w' & tr' & Hsend & ->).
  unfold mbind, M_bind. rewrite Hsend. exists w'. by destruct err.
Qed.


(** X10. A [POST] to [/poweron] for a machine that is already on is
    answered with the redirect, and no power-up command is sent. *)
Theorem powerOnHandler_post_when_already_on env w w2 w3 :
  session_established bmc
    (getEnvOrDefault env "IPMI_HOST" "192.168.0.1")
    (getEnvOrDefault env "IPMI_USERNAME" "admin")
    (getEnvOrDefault env "IPMI_PASSWORD" "admin") 623 w w2 →
  GetChassisStatus bmc w2 = (inr true, w3) →
  let '(answer, (_, tr)) := powerOnHandler bmc env "POST" (w, []) in
  answer = HttpRedirect "/" 303 ∧ count is_power_on_command tr = 0.
Proof.
  intros (w1 & Hnew & Hconn) Hstatus.
  destruct (powerOnHandler_run env w) as (w' & ->).
  by rewrite (run_already_on _ _ _ _ _ _ _ _ _ Hnew Hconn Hstatus).
Qed.

End web.

(** ** The receive loop *)

Section receive_loop_properties.
Import WOL MAC IPMI Config Listener.
Context {W : Type} (bmc : Controller W).
Implicit Types (cfg : settings) (port : Z) (targetMAC : list byte)
  (st : loop_state W) (input : string * udp_input).

Lemma count_app (p : event → bool) (tr1 tr2 : list event) :
  count p (tr1 ++ tr2) = count p tr1 + count p tr2.
Proof. unfold count. by rewrite filter_app, length_app. Qed.

Lemma count_app_skip (p : event → bool) (e : event) (tr1 tr2 : list event) :
  p e = false → count p (tr1 ++ e :: tr2) = count p tr1 + count p tr2.
Proof.
  intros He. rewrite count_app. unfold count.
  by rewrite filter_cons, decide_False by (by rewrite He).
Qed.

(** The condition of the loop after a read into a buffer of 1024 bytes,
    for any target of six bytes or more. *)
Lemma trigger_condition_after_read (buf datagram : list byte) targetMAC :
  length buf = 1024 → 6 ≤ length targetMAC →
  trigger_condition (ReadFromUDP buf datagram).2 (ReadFromUDP buf datagram).1
    targetMAC =
    Done (bool_decide (102 ≤ length datagram ∧
                       take 102 datagram = magic_packet (take 6 targetMAC))).
Proof.
  intros Hb Ht. unfold ReadFromUDP, trigger_condition. cbn [fst snd].
  rewrite Hb. case_decide as Hn.
  - unfold slice_to, slice.
    rewrite decide_True
      by (rewrite length_app, length_take, length_drop; lia).
    rewrite isValidWOLPacket_spec by lia.
    rewrite Nat.sub_0_r, drop_0, take_app_le by (rewrite length_take; lia).
    rewrite take_take, Nat.min_l by lia.
    f_equal. apply bool_decide_ext. split; [intros; split; [lia | done] | tauto].
  - rewrite bool_decide_eq_false_2; [done | lia].
Qed.

(** One pass of the loop: it never panics and keeps the buffer's length;
    a read that does not trigger leaves controller and trace as they
    were; one that does adds the announcement and one run of
    [sendIPMIPowerOn]. *)
Lemma loop_body_step cfg port targetMAC st input :
  length (buffer st) = 1024 → 6 ≤ length targetMAC →
  ∃ st',
    loop_body bmc cfg port targetMAC st input = Done st' ∧
    length (buffer st') = 1024 ∧
    if triggers targetMAC input
    then ∃ line,
           trace st' = trace st ++ Printed line ::
             (run_sendIPMIPowerOn bmc (finalHost cfg) (finalUsername cfg)
                (finalPassword cfg) port (world st)).2
    else world st' = world st ∧ trace st' = trace st.
Proof.
  intros Hb Ht. destruct input as [clientAddr [err|datagram]].
  { eexists. split; [reflexivity |]. by cbn. }
  unfold loop_body, triggers. cbn [snd].
  pose proof (trigger_condition_after_read (buffer st) datagram targetMAC Hb Ht)
    as Hcond.
  assert (length (ReadFromUDP (buffer st) datagram).2 = 1024) as Hlen.
  { unfold ReadFromUDP. cbn [snd].
    rewrite length_app, length_take, length_drop. lia. }
  destruct (ReadFromUDP (buffer st) datagram) as [n buf]. cbn [fst snd] in *.
  rewrite Hcond. unfold mbind at 1, outcome_bind at 1. cbn beta iota.
  destruct (bool_decide _).
  - unfold mbind, M_bind, emit. cbn beta iota.
    destruct (sendIPMIPowerOn_frame bmc (finalHost cfg) (finalUsername cfg)
                (finalPassword cfg) port (world st)
                (trace st ++ [Printed ("Received valid WoL packet from " +:+
                   clientAddr +:+ " for MAC " +:+ finalMAC cfg +:+ nl)]))
      as (err & w' & tr' & -> & ->).
    eexists. split; [reflexivity |]. split; [done |]. cbn [trace snd].
    eexists. by rewrite <-app_assoc.
  - eexists. split; [reflexivity |]. by cbn.
Qed.

(** X11. As long as no read triggers (read errors, short datagrams,
    datagrams for another address), the loop goes on without a panic and
    never touches the controller: its state and the trace stay as they
    were. *)
Theorem receive_loop_quiet_without_trigger cfg port targetMAC
    (inputs : list (string * udp_input)) st :
  length (buffer st) = 1024 → 6 ≤ length targetMAC →
  Forall (λ input, triggers targetMAC input = false) inputs →
  ∃ st', receive_loop bmc cfg port targetMAC inputs st = Done st' ∧
         world st' = world st ∧ trace st' = trace st.
Proof.
  intros Hb Ht Hquiet. revert st Hb.
  induction Hquiet as [|input inputs Hinput _ IH]; intros st Hb.
  { by exists st. }
  destruct (loop_body_step cfg port targetMAC st input Hb Ht)
    as (st1 & Hstep & Hb1 & Hsame).
  rewrite Hinput in Hsame. destruct Hsame as [Hw Htr].
  destruct (IH st1 Hb1) as (st' & Hloop & Hw' & Htr').
  exists st'. cbn [receive_loop]. rewrite Hstep.
  split; [exact Hloop | split; congruence].
Qed.

(** X12. The loop never panics and never stops on an error: over any
    sequence of reads it calls [sendIPMIPowerOn] once for each read that
    triggers, whatever the earlier calls returned, and it sends at most
    one power-up command for each of them. *)
Theorem receive_loop_one_call_per_trigger cfg port targetMAC
    (inputs : list (string * udp_input)) st :
  length (buffer st) = 1024 → 6 ≤ length targetMAC →
  ∃ st', receive_loop bmc cfg port targetMAC inputs st = Done st' ∧
         length (buffer st') = 1024 ∧
         count is_new_client (trace st') =
           count is_new_client (trace st) +
           length (filter (λ input, triggers targetMAC input = true) inputs) ∧
         count is_power_on_command (trace st') ≤
           count is_power_on_command (trace st) +
           length (filter (λ input, triggers targetMAC input = true) inputs).
Proof.
  intros Hb Ht. revert st Hb.
  induction inputs as [|input inputs IH]; intros st Hb.
  { exists st. cbn. split; [done |]. split; [done |]. lia. }
  destruct (loop_body_step cfg port targetMAC st input Hb Ht)
    as (st1 & Hstep & Hb1 & Hsame).
  destruct (IH st1 Hb1) as (st' & Hloop & Hb' & Hcalls & Hcommands).
  exists st'. cbn [receive_loop]. rewrite Hstep.
  split; [exact Hloop |]. split; [exact Hb' |].
  rewrite Hcalls. rewrite filter_cons.
  destruct (triggers targetMAC input) eqn:Htrig.
  - destruct Hsame as [line Htr].
    pose proof (run_summary bmc (finalHost cfg) (finalUsername cfg)
                  (finalPassword cfg) port (world st)) as (Hone & Hmost & _).
    rewrite decide_True by done. cbn [length].
    rewrite Htr in Hcommands |- *.
    rewrite (count_app_skip is_new_client) by done.
    rewrite (count_app_skip is_power_on_command) in Hcommands by done.
    lia.
  - destruct Hsame as [_ Htr]. rewrite decide_False by done.
    rewrite Htr in Hcommands |- *. lia.
Qed.

(** X13. The loop listens for the first six bytes of whatever address
    [parseMAC] accepted: for a target of 6, 8 or 20 bytes a datagram
    triggers exactly when it has 102 bytes or more and its first 102 are
    the magic packet of those six bytes; the condition never panics. *)
Theorem receive_iteration_for_parsed_target (macStr buf datagram : list byte)
    targetMAC :
  parseMAC macStr = Done targetMAC → length buf = 1024 →
  (receive_iteration buf (Recv datagram) targetMAC).2 =
    Done (bool_decide (102 ≤ length datagram ∧
                       take 102 datagram = magic_packet (take 6 targetMAC))).
Proof.
  intros Hparse Hb. apply parseMAC_length_ge_6 in Hparse.
  pose proof (trigger_condition_after_read buf datagram targetMAC Hb Hparse)
    as Hcond.
  unfold receive_iteration.
  by destruct (ReadFromUDP buf datagram) as [n buf'].
Qed.

End receive_loop_properties.

(** ** Start-up *)

Section startup.
Import MAC IPMI Config Listener.
Context {W : Type} (bmc : Controller W).
Implicit Types (args env : gmap string string) (port : Z) (w : W).

(** X14. The sequential part of [main] never panics. When the address it
    arrived at does not parse, it ends in [log.Fatalf] before the
    controller has been called, in direct mode as in any other; and when
    it goes on to serve, it has not called the controller either and
    listens for an address of 6, 8 or 20 bytes. *)
Theorem main_checks_address_first args env port w :
  (main bmc args env port w).1 ≠ Crashed ∧
  (∀ err, parseMAC (str (finalMAC (resolve args env))) = Failed err →
     main bmc args env port w =
       (Fatal ("Invalid MAC address format: " +:+ AddrError_Error err), [])) ∧
  (∀ cfg targetMAC, (main bmc args env port w).1 = Serves cfg targetMAC →
     (main bmc args env port w).2 = [] ∧
     (length targetMAC = 6 ∨ length targetMAC = 8 ∨ length targetMAC = 20)).
Proof.
  unfold main.
  pose proof (parseMAC_result (str (finalMAC (resolve args env)))) as Hparse.
  destruct (parseMAC _) as [targetMAC|err|]; [| | done].
  - split; [| split].
    + case_decide; [| done].
      by destruct (run_sendIPMIPowerOn _ _ _ _ _ _) as [[?|] ?].
    + intros ? [=].
    + intros cfg targetMAC'. case_decide.
      * by destruct (run_sendIPMIPowerOn _ _ _ _ _ _) as [[?|] ?].
      * intros [= <- <-]. split; [done | tauto].
  - split; [done |]. split; [by intros ? [= ->] | intros ? ? [=]].
Qed.


End startup.

(** ** The first version of the program *)

Section first_version.
Import IPMI Legacy.
Context {W : Type} (bmc : Controller W).
Implicit Types (host username password : string) (port : Z) (w : W).

Ltac both_unfold :=
  unfold run_sendIPMIPowerOn, sendIPMIPowerOn, power_on_or_die,
    defer, defer_unless_fatal, Println, call, emit;
  unfold mbind, M_bind, mret, M_ret; cbn beta iota.


(** X17. In the first version a failure after the session had been
    established (the status query fails, or the machine is off and the
    power-up command fails) ended the process with the session still
    open: [Close] had not been called. *)
Theorem first_main_leaves_session_open host username password port w w2 :
  session_established bmc host username password port w w2 →
  (∃ err w3, GetChassisStatus bmc w2 = (inl err, w3)) ∨
  (∃ w3 err w4, GetChassisStatus bmc w2 = (inr false, w3) ∧
                ChassisControl bmc ChassisControlPowerUp w3 = (Some err, w4)) →
  let '(ending, (_, tr)) :=
    power_on_or_die bmc host username password port (w, []) in
  (∃ message, ending = Fatal message) ∧
  session_open tr = true ∧
  count is_close tr = 0.
Proof.
  intros (w1 & Hnew & Hconn) Hfail. unfold configured in Hconn.
  both_unfold. rewrite Hnew. cbn beta iota. rewrite Hconn. cbn beta iota.
  destruct Hfail as [(err & w3 & Hstatus) | (w3 & err & w4 & Hstatus & Hctl)];
    rewrite Hstatus; cbn beta iota; [| rewrite Hctl; cbn beta iota];
    (split; [by eexists | by vm_compute]).
Qed.

End first_version.

(** ** Addresses as text *)

Section address_text.
Import MAC MACText.
Implicit Types (s : list byte) (sep h l : byte) (octets : list (byte * byte)).

Lemma hex_digit_range (c : byte) (d : Z) :
  hex_digit c = Some d → (0 ≤ d < 16)%Z.
Proof.
  unfold hex_digit. repeat case_decide; intros [= <-]; lia.
Qed.

(** [xtoi] on two bytes. *)
Lemma xtoi_two h l :
  xtoi [h; l] =
    match hex_digit h with
    | None => (0%Z, 0, false)
    | Some a =>
        match hex_digit l with
        | None => (a, 1, true)
        | Some b => ((a * 16 + b)%Z, 2, true)
        end
    end.
Proof.
  unfold xtoi. cbn [xtoi_from].
  destruct (hex_digit h) as [a|] eqn:Ha; [| done].
  apply hex_digit_range in Ha.
  rewrite decide_False by (unfold big; lia).
  destruct (hex_digit l) as [b|] eqn:Hb; [| done].
  apply hex_digit_range in Hb.
  rewrite decide_False by (unfold big; lia).
  done.
Qed.

(** [xtoi2] on two digits that end the text or are followed by the
    separator. *)
Lemma xtoi2_octet h l sep (tail : list byte) :
  tail = [] ∨ (∃ rest, tail = sep :: rest) →
  ∃ b (ok : bool),
    xtoi2 (h :: l :: tail) sep = Done (b, ok) ∧
    octet_value (h, l) = if ok then Some b else None.
Proof.
  intros Htail. unfold xtoi2.
  assert ((if decide (2 < length (h :: l :: tail))
           then c ← index (E:=AddrError) (h :: l :: tail) 2;
                mret (bool_decide (c ≠ sep))
           else mret false) = Done false) as ->.
  { destruct Htail as [-> | [rest ->]]; cbn; [done |].
    rewrite decide_True by lia. cbn. by rewrite bool_decide_eq_false_2 by auto. }
  unfold mbind at 1, outcome_bind at 1. cbn beta iota.
  unfold slice_to, slice. rewrite decide_True by (cbn; lia).
  unfold mbind at 1, outcome_bind at 1. cbn beta iota.
  cbn [drop take Nat.sub]. rewrite xtoi_two. unfold octet_value. cbn [fst snd].
  destruct (hex_digit h) as [a|]; cbn.
  - destruct (hex_digit l) as [b|]; cbn.
    + by exists (byte_of_int (a * 16 + b)), true.
    + by exists (byte_of_int a), false.
  - by exists (byte_of_int 0), false.
Qed.

Lemma length_render sep octets :
  octets ≠ [] → length (render sep octets) + 1 = 3 * length octets.
Proof.
  induction octets as [|[h l] [|p rest] IH]; [done | done |].
  intros _. cbn [render length] in *. specialize (IH ltac:(done)). lia.
Qed.

Lemma drop_render sep octets (i : nat) :
  i < length octets →
  drop (3 * i) (render sep octets) = render sep (drop i octets).
Proof.
  revert octets. induction i as [|i IH]; intros octets Hi; [done |].
  destruct octets as [|[h l] [|p rest]]; cbn [length] in Hi; [lia | lia |].
  replace (3 * S i) with (S (S (S (3 * i)))) by lia.
  change (drop (S (S (S (3 * i)))) (render sep ((h, l) :: p :: rest)))
    with (drop (3 * i) (render sep (p :: rest))).
  change (drop (S i) ((h, l) :: p :: rest)) with (drop i (p :: rest)).
  apply IH. cbn [length]. lia.
Qed.

Lemma render_cons sep h l octets :
  ∃ tail, render sep ((h, l) :: octets) = h :: l :: tail ∧
          (tail = [] ∨ ∃ rest, tail = sep :: rest).
Proof. destruct octets; cbn [render]; eauto. Qed.

Lemma fmap_render (f : byte → byte) sep octets :
  f <$> render sep octets = render (f sep) (prod_map f f <$> octets).
Proof.
  induction octets as [|[h l] [|p rest] IH]; [done | done |].
  cbn [render fmap list_fmap prod_map fst snd] in *. by rewrite IH.
Qed.

Lemma ReplaceAll_byte_fmap s (a b : byte) :
  ReplaceAll s [a] [b] = (λ c, if decide (c = a) then b else c) <$> s.
Proof.
  unfold ReplaceAll. induction s as [|c s IH]; [done |].
  cbn [ReplaceAll_from length Nat.sub fmap list_fmap].
  destruct (decide (c = a)) as [->|Hc].
  - rewrite decide_True by (by exists s). cbn. by rewrite IH.
  - rewrite decide_False.
    + by rewrite IH.
    + intros [k Hk]. by injection Hk.
Qed.

Lemma parseMAC_ParseMAC s :
  parseMAC s = ParseMAC (colon_for_hyphen <$> s).
Proof.
  unfold parseMAC. change (str "-") with ["-"%byte].
  change (str ":") with [":"%byte]. rewrite ReplaceAll_byte_fmap.
  by destruct (ParseMAC _).
Qed.

Lemma octet_value_colon_for_hyphen (p : byte * byte) :
  octet_value (prod_map colon_for_hyphen colon_for_hyphen p) = octet_value p.
Proof.
  assert (∀ c, hex_digit (colon_for_hyphen c) = hex_digit c) as Hc.
  { intros c. unfold colon_for_hyphen. by case_decide; subst. }
  destruct p as [h l]. unfold octet_value. cbn. by rewrite !Hc.
Qed.

Ltac bind_step := unfold mbind at 1, outcome_bind at 1; cbn beta iota.

(** The loop of [net.ParseMAC] over the text of [octets]: it stores the
    value of each octet, or fails at the first one that has none. *)
Lemma colon_loop_render octets :
  octets ≠ [] →
  match for_upto 0 (length octets) 1
          (colon_body (render ":" octets) ":")
          (0, replicate (length octets) Byte.x00) with
  | Done st' => Forall2 (λ p v, octet_value p = Some v) octets st'.2
  | Failed e =>
      e = invalid (render ":" octets) ∧
      Exists (λ p, octet_value p = None) octets
  | Panic => False
  end.
Proof.
  intros Hne. pose proof (length_render ":" octets Hne) as Hlen.
  set (s := render ":" octets) in *. set (n := length octets) in *.
  opose proof* (for_upto_inv
    (λ i (st : nat * list byte),
       st.1 = 3 * i ∧ i ≤ n ∧
       ∃ vals, Forall2 (λ p v, octet_value p = Some v) (take i octets) vals ∧
               st.2 = vals ++ replicate (n - i) Byte.x00)
    (λ e, e = invalid s ∧ Exists (λ p, octet_value p = None) octets)
    (colon_body s ":") 0 n 1 (0, replicate n Byte.x00)) as Hloop.
  { lia. }
  { intros i [x hw] Hi (Hx & _ & vals & Hvals & Hhw). cbn [fst snd] in *.
    subst x hw. pose proof (Forall2_length _ _ _ Hvals) as Hlv.
    rewrite length_take in Hlv.
    unfold colon_body, slice_from. rewrite slice_Done by lia. bind_step.
    rewrite take_ge by (rewrite length_drop; lia).
    unfold s. rewrite drop_render by done.
    destruct (lookup_lt_is_Some_2 octets i Hi) as [[h l] Hp].
    rewrite (drop_S _ _ _ Hp).
    destruct (render_cons ":" h l (drop (S i) octets)) as (tl & -> & Htl).
    destruct (xtoi2_octet h l ":" tl Htl) as (b & ok & -> & Hval).
    bind_step. rewrite store_Done by (rewrite length_app, length_replicate; lia).
    bind_step. destruct ok; unfold mret, outcome_ret; cbn beta iota.
    - cbn [fst snd]. split; [lia |]. split; [lia |].
      exists (vals ++ [b]). split.
      + rewrite Nat.add_1_r, (take_S_r _ _ _ Hp).
        apply Forall2_app; [done | by constructor].
      + rewrite insert_app_r_alt by lia.
        replace (i - length vals) with 0 by lia.
        replace (n - i) with (S (n - (i + 1))) by lia.
        cbn [replicate]. by rewrite <-app_assoc.
    - split; [done |]. apply Exists_exists. exists (h, l).
      split; [by eapply list_elem_of_lookup_2 | done]. }
  { cbn [fst snd]. split; [done |]. split; [lia |].
    exists []. split; [by rewrite take_0 | by rewrite Nat.sub_0_r]. }
  destruct (for_upto _ _ _ _ _) as [[x hw]| |]; [| done..].
  destruct Hloop as (i' & Hi' & _ & Hle & vals & Hvals & ->). cbn [snd].
  replace (n - i') with 0 by lia. rewrite app_nil_r.
  by rewrite take_ge in Hvals by (fold n; lia).
Qed.

(** [net.ParseMAC] on the text of 6, 8 or 20 octets with colons. *)
Lemma ParseMAC_render octets :
  length octets = 6 ∨ length octets = 8 ∨ length octets = 20 →
  match ParseMAC (render ":" octets) with
  | Done hw => Forall2 (λ p v, octet_value p = Some v) octets hw
  | Failed e =>
      e = invalid (render ":" octets) ∧
      Exists (λ p, octet_value p = None) octets
  | Panic => False
  end.
Proof.
  intros Hn. assert (octets ≠ []) as Hne by (intros ->; cbn in Hn; lia).
  pose proof (length_render ":" octets Hne) as Hlen.
  pose proof (colon_loop_render octets Hne) as Hloop.
  assert (render ":" octets !! 2 = Some ":"%byte) as Hsep.
  { destruct octets as [|[h l] [|p rest]]; cbn in Hn; [lia | lia | done]. }
  unfold ParseMAC. rewrite decide_False by lia.
  unfold index. rewrite Hsep. bind_step.
  case_decide as Hs; [| exfalso; apply Hs; by left].
  replace (length (render ":" octets) + 1) with (length octets * 3) by lia.
  rewrite Nat.Div0.mod_mul, Nat.div_mul by lia.
  case_decide; [done |]. case_decide; [lia |].
  destruct (for_upto _ _ _ _ _) as [[x hw]| |]; bind_step; done.
Qed.

Lemma octet_values_unique octets (hw hw' : list byte) :
  Forall2 (λ p v, octet_value p = Some v) octets hw →
  Forall2 (λ p v, octet_value p = Some v) octets hw' → hw = hw'.
Proof.
  intros H. revert hw'. induction H as [|p v octets hw Hp _ IH]; intros hw' H'.
  - by inversion H'.
  - inversion H' as [|? v' ? hw'' Hp' Hrest]; subst.
    f_equal; [congruence | by apply IH].
Qed.

Lemma octet_values_all_or_none octets (hw : list byte) :
  Forall2 (λ p v, octet_value p = Some v) octets hw →
  Exists (λ p, octet_value p = None) octets → False.
Proof.
  induction 1 as [|p v octets hw Hp _ IH]; intros Hex; inversion Hex; subst;
    [congruence | auto].
Qed.

(** [parseMAC] on the text of 6, 8 or 20 octets, with colons or with
    hyphens. *)
Lemma parseMAC_render sep octets :
  length octets = 6 ∨ length octets = 8 ∨ length octets = 20 →
  sep = ":"%byte ∨ sep = "-"%byte →
  match parseMAC (render sep octets) with
  | Done hw => Forall2 (λ p v, octet_value p = Some v) octets hw
  | Failed e => Exists (λ p, octet_value p = None) octets
  | Panic => False
  end.
Proof.
  intros Hn Hsep. rewrite parseMAC_ParseMAC, fmap_render.
  replace (colon_for_hyphen sep) with ":"%byte by (by destruct Hsep as [-> | ->]).
  pose proof (ParseMAC_render (prod_map colon_for_hyphen colon_for_hyphen <$> octets))
    as Hparse.
  rewrite length_fmap in Hparse. specialize (Hparse Hn).
  destruct (ParseMAC _) as [hw|e|]; [| | done].
  - apply Forall2_fmap_l in Hparse.
    eapply Forall2_impl; [exact Hparse |].
    intros p v. cbn. by rewrite octet_value_colon_for_hyphen.
  - destruct Hparse as [_ Hex]. apply Exists_fmap in Hex.
    eapply Exists_impl; [exact Hex |].
    intros p. cbn. by rewrite octet_value_colon_for_hyphen.
Qed.

(** X18. For a text of 6, 8 or 20 octets, two hex digits each (in either
    case), with colons or with hyphens between them, [parseMAC] returns
    the bytes these digits stand for, the first digit of an octet the
    high half; and these are the only texts of that shape it accepts. *)
Theorem parseMAC_reads_octets sep octets (hw : list byte) :
  length octets = 6 ∨ length octets = 8 ∨ length octets = 20 →
  sep = ":"%byte ∨ sep = "-"%byte →
  parseMAC (render sep octets) = Done hw ↔
  Forall2 (λ p v, octet_value p = Some v) octets hw.
Proof.
  intros Hn Hsep. pose proof (parseMAC_render sep octets Hn Hsep) as Hparse.
  split.
  - intros H. by rewrite H in Hparse.
  - intros Hvals. destruct (parseMAC _) as [hw'|e|]; [| | done].
    + f_equal. by eapply octet_values_unique.
    + destruct (octet_values_all_or_none _ _ Hvals Hparse).
Qed.

(** X19. Such a text is rejected with the parser's error exactly when
    one of its octets has a byte that is no hex digit. *)
Theorem parseMAC_rejects_bad_digit sep octets :
  length octets = 6 ∨ length octets = 8 ∨ length octets = 20 →
  sep = ":"%byte ∨ sep = "-"%byte →
  (∃ err, parseMAC (render sep octets) = Failed err) ↔
  Exists (λ p, hex_digit p.1 = None ∨ hex_digit p.2 = None) octets.
Proof.
  intros Hn Hsep. pose proof (parseMAC_render sep octets Hn Hsep) as Hparse.
  assert (∀ p, octet_value p = None ↔
               hex_digit p.1 = None ∨ hex_digit p.2 = None) as Hnone.
  { intros [h l]. unfold octet_value. cbn.
    destruct (hex_digit h), (hex_digit l); cbn; intuition congruence. }
  split.
  - intros [err H]. rewrite H in Hparse.
    eapply Exists_impl; [exact Hparse |]. intros p. apply Hnone.
  - intros Hex.
    assert (Exists (λ p, octet_value p = None) octets) as Hex'
      by (eapply Exists_impl; [exact Hex |]; intros p; apply Hnone).
    destruct (parseMAC _) as [hw|e|]; [| by exists e | done].
    destruct (octet_values_all_or_none _ _ Hparse Hex').
Qed.

(** X20. [parseMAC] does not tell a hyphen from a colon: two texts that
    are the same once every hyphen is read as a colon give the same
    result, the same bytes or the same error. *)
Theorem parseMAC_hyphen_is_colon s s' :
  colon_for_hyphen <$> s = colon_for_hyphen <$> s' →
  parseMAC s = parseMAC s'.
Proof. intros H. by rewrite !parseMAC_ParseMAC, H. Qed.

(** X21. [parseMAC] accepts only texts of 17, 23 or 59 bytes (octets with
    colons or hyphens) and of 14, 19 or 49 bytes (groups of four digits
    with dots), and returns 6, 8 or 20 bytes accordingly; the empty text
    and every text with anything before or after the address are
    rejected. *)
Theorem parseMAC_accepted_lengths s (hw : list byte) :
  parseMAC s = Done hw →
  (length s = 17 ∧ length hw = 6) ∨ (length s = 23 ∧ length hw = 8) ∨
  (length s = 59 ∧ length hw = 20) ∨ (length s = 14 ∧ length hw = 6) ∨
  (length s = 19 ∧ length hw = 8) ∨ (length s = 49 ∧ length hw = 20).
Proof.
  intros H. pose proof (parseMAC_result s) as Hr. rewrite H in Hr. lia.
Qed.

End address_text.

(** ** The validator on a short target *)

Section short_target.
Import WOL.

(** The first iteration of a loop that does not fall through decides how
    the loop ends. *)
Lemma for_range_first_exit {A} (body : nat → exec A) (i n k : nat) :
  i ≤ k < i + n →
  (∀ k', i ≤ k' < k → (body k').2 = Fallthrough) →
  (body k).2 ≠ Fallthrough →
  (for_range i n body).2 = (body k).2.
Proof.
  revert i. induction n as [|n IH]; intros i Hk Hbefore Hexit; [lia |].
  cbn [for_range]. rewrite seq_stmt_flow.
  destruct (decide (k = i)) as [->|Hne].
  - by destruct ((body i).2).
  - rewrite Hbefore by lia. apply IH; [lia | | done].
    intros k' ?. apply Hbefore. lia.
Qed.

(** X22. A target of fewer than six bytes is outside what
    [isValidWOLPacket] can handle: on a datagram of 102 bytes whose
    header is right and whose first address bytes agree with the target
    as far as it goes, the call panics with an index out of range
    instead of returning. *)
Theorem isValidWOLPacket_short_target_panics (data targetMAC : list byte) :
  length targetMAC < 6 → length data = 102 →
  (∀ k, k < 6 → data !! k = Some xFF) →
  (∀ j, j < length targetMAC → data !! (6 + j) = targetMAC !! j) →
  isValidWOLPacket data targetMAC = Panic.
Proof.
  intros Ht Hd Hsync Hmac.
  unfold isValidWOLPacket, isValidWOLPacket_exec, call_result.
  rewrite decide_False by (intros H; by apply H).
  rewrite !seq_stmt_flow.
  rewrite (for_range_check false (λ k, data !! k = Some xFF))
    by (intros k ?; apply sync_check_flow; lia).
  rewrite decide_True by (apply Forall_seq; intros; apply Hsync; lia).
  assert ((mac_check data targetMAC 0 (length targetMAC)).2 = Panicked) as Hpanic.
  { unfold mac_check.
    destruct (lookup_lt_is_Some_2 data (6 + 0 * 6 + length targetMAC))
      as [x ->]; [lia |].
    cbn [snd]. by rewrite lookup_ge_None_2. }
  assert ((for_range 0 6 (mac_check data targetMAC 0)).2 = Panicked) as Hinner.
  { rewrite (for_range_first_exit _ 0 6 (length targetMAC)).
    - exact Hpanic.
    - lia.
    - intros j ?. rewrite mac_check_flow by lia.
      rewrite decide_True; [done |]. apply (Hmac j). lia.
    - by rewrite Hpanic. }
  rewrite (for_range_first_exit _ 0 16 0); [| lia | intros; lia |];
    by rewrite Hinner.
Qed.

End short_target.

(** ** The further properties at concrete inputs *)

Section further_witnesses.
Import WOL MAC MACText IPMI Config Web Listener Legacy Samples.

Lemma getEnvOrDefault_empty_is_unset_witness :
  ({["IPMI_HOST" := ""]} : gmap string string) !! "IPMI_HOST" = Some "" ∧
  getEnvOrDefault {["IPMI_HOST" := ""]} "IPMI_HOST" "192.168.0.1"
    = "192.168.0.1".
Proof.
  split; [reflexivity |].
  apply (proj1 (getEnvOrDefault_empty_is_unset
                  {["IPMI_HOST" := ""]} "IPMI_HOST" "192.168.0.1")).
  right. reflexivity.
Defined.

Lemma resolve_credentials_never_empty_witness :
  finalHost (resolve {["host" := ""]} {["IPMI_HOST" := ""]}) ≠ "" ∧
  finalUsername (resolve {["host" := ""]} {["IPMI_HOST" := ""]}) ≠ "" ∧
  finalPassword (resolve {["host" := ""]} {["IPMI_HOST" := ""]}) ≠ "".
Proof.
  exact (resolve_credentials_never_empty {["host" := ""]} {["IPMI_HOST" := ""]}).
Defined.


Lemma getPowerStatus_returns_answer_witness :
  session_established (sample_bmc None None) "10.0.0.1" "admin" "admin" 623
    true true ∧
  GetChassisStatus (sample_bmc None None) true = (inr true, true) ∧
  (getPowerStatus (sample_bmc None None) "10.0.0.1" "admin" "admin" 623
     (true, [])).1 = (true, None).
Proof.
  assert (session_established (sample_bmc None None)
            "10.0.0.1" "admin" "admin" 623 true true) as Hs
    by (exists true; split; reflexivity).
  split; [exact Hs |]. split; [reflexivity |].
  exact (getPowerStatus_returns_answer (sample_bmc None None)
           "10.0.0.1" "admin" "admin" 623 true true true true Hs eq_refl).
Defined.

Lemma webHandler_page_is_consistent_witness :
  (webHandler (sample_bmc (Some "timeout") None) ∅ (true, [])).1
    = ({| Host := "192.168.0.1"; Status := "Unknown"; IsPowered := false |},
       ["Error getting power status: failed to establish session: timeout"]) ∧
  let '((data, logged), (_, tr)) :=
    webHandler (sample_bmc (Some "timeout") None) ∅ (true, []) in
  (Status data = "ON" ∨ Status data = "OFF" ∨ Status data = "Unknown") ∧
  (IsPowered data = true ↔ Status data = "ON") ∧
  (logged ≠ [] ↔ Status data = "Unknown") ∧
  (reloads_itself data = true ↔ Status data = "Unknown") ∧
  (offers_power_on data = true ↔ Status data ≠ "ON") ∧
  status_class data =
    (if IsPowered data then "on"
     else if reloads_itself data then "unknown" else "off") ∧
  count is_power_on_command tr = 0.
Proof.
  split; [reflexivity |].
  exact (webHandler_page_is_consistent (sample_bmc (Some "timeout") None)
           ∅ true).
Defined.

Lemma webHandler_shows_answer_witness :
  session_established (sample_bmc None None)
    (getEnvOrDefault ∅ "IPMI_HOST" "192.168.0.1")
    (getEnvOrDefault ∅ "IPMI_USERNAME" "admin")
    (getEnvOrDefault ∅ "IPMI_PASSWORD" "admin") 623 false false ∧
  GetChassisStatus (sample_bmc None None) false = (inr false, false) ∧
  (webHandler (sample_bmc None None) ∅ (false, [])).1 =
    ({| Host := getEnvOrDefault ∅ "IPMI_HOST" "192.168.0.1";
        Status := "OFF"; IsPowered := false |}, []).
Proof.
  assert (session_established (sample_bmc None None)
            (getEnvOrDefault ∅ "IPMI_HOST" "192.168.0.1")
            (getEnvOrDefault ∅ "IPMI_USERNAME" "admin")
            (getEnvOrDefault ∅ "IPMI_PASSWORD" "admin") 623 false false) as Hs
    by (exists false; split; reflexivity).
  split; [exact Hs |]. split; [reflexivity |].
  exact (webHandler_shows_answer (sample_bmc None None) ∅ false false false
           false Hs eq_refl).
Defined.


Lemma powerOnHandler_post_when_already_on_witness :
  session_established (sample_bmc None None)
    (getEnvOrDefault ∅ "IPMI_HOST" "192.168.0.1")
    (getEnvOrDefault ∅ "IPMI_USERNAME" "admin")
    (getEnvOrDefault ∅ "IPMI_PASSWORD" "admin") 623 true true ∧
  GetChassisStatus (sample_bmc None None) true = (inr true, true) ∧
  let '(answer, (_, tr)) :=
    powerOnHandler (sample_bmc None None) ∅ "POST" (true, []) in
  answer = HttpRedirect "/" 303 ∧ count is_power_on_command tr = 0.
Proof.
  assert (session_established (sample_bmc None None)
            (getEnvOrDefault ∅ "IPMI_HOST" "192.168.0.1")
            (getEnvOrDefault ∅ "IPMI_USERNAME" "admin")
            (getEnvOrDefault ∅ "IPMI_PASSWORD" "admin") 623 true true) as Hs
    by (exists true; split; reflexivity).
  split; [exact Hs |]. split; [reflexivity |].
  exact (powerOnHandler_post_when_already_on (sample_bmc None None) ∅
           true true true Hs eq_refl).
Defined.

Lemma receive_loop_quiet_without_trigger_witness :
  length (buffer entry_state) = 1024 ∧ 6 ≤ length mac_a ∧
  Forall (λ input, triggers mac_a input = false) quiet_reads ∧
  ∃ st', receive_loop (sample_bmc None None) settings_a 623 mac_a
           quiet_reads entry_state = Done st' ∧
         world st' = world entry_state ∧ trace st' = trace entry_state.
Proof.
  assert (6 ≤ length mac_a) as Ht by (cbn; lia).
  assert (Forall (λ input, triggers mac_a input = false) quiet_reads) as Hq
    by (repeat (constructor; [by vm_compute |]); constructor).
  split; [reflexivity |]. split; [exact Ht |]. split; [exact Hq |].
  exact (receive_loop_quiet_without_trigger (sample_bmc None None)
           settings_a 623 mac_a quiet_reads entry_state eq_refl Ht Hq).
Defined.

Lemma receive_loop_one_call_per_trigger_witness :
  length (buffer entry_state) = 1024 ∧ 6 ≤ length mac_a ∧
  length (filter (λ input, triggers mac_a input = true) reads_with_trigger) = 1 ∧
  ∃ st', receive_loop (sample_bmc None None) settings_a 623 mac_a
           reads_with_trigger entry_state = Done st' ∧
         length (buffer st') = 1024 ∧
         count is_new_client (trace st') =
           count is_new_client (trace entry_state) +
           length (filter (λ input, triggers mac_a input = true)
                     reads_with_trigger) ∧
         count is_power_on_command (trace st') ≤
           count is_power_on_command (trace entry_state) +
           length (filter (λ input, triggers mac_a input = true)
                     reads_with_trigger).
Proof.
  assert (6 ≤ length mac_a) as Ht by (cbn; lia).
  split; [reflexivity |]. split; [exact Ht |]. split; [by vm_compute |].
  exact (receive_loop_one_call_per_trigger (sample_bmc None None)
           settings_a 623 mac_a reads_with_trigger entry_state eq_refl Ht).
Defined.

Lemma receive_iteration_for_parsed_target_witness :
  parseMAC (str "00:11:22:33:44:55:66:77")
    = Done (mac_a ++ [Byte.x66; Byte.x77]) ∧
  length initial_buffer = 1024 ∧
  (receive_iteration initial_buffer (Recv (magic_packet mac_a))
     (mac_a ++ [Byte.x66; Byte.x77])).2 = Done true.
Proof.
  assert (parseMAC (str "00:11:22:33:44:55:66:77")
          = Done (mac_a ++ [Byte.x66; Byte.x77])) as Hparse by (by vm_compute).
  split; [exact Hparse |]. split; [reflexivity |].
  rewrite (receive_iteration_for_parsed_target _ initial_buffer
             (magic_packet mac_a) _ Hparse eq_refl).
  by vm_compute.
Defined.

Lemma main_checks_address_first_witness :
  parseMAC (str (finalMAC (resolve {["mac" := "00:11:22"; "mode" := "direct"]} ∅)))
    = Failed (invalid (str "00:11:22")) ∧
  main (sample_bmc None None) {["mac" := "00:11:22"; "mode" := "direct"]} ∅
    623 false
    = (Listener.Fatal
         "Invalid MAC address format: address 00:11:22: invalid MAC address",
       []).
Proof.
  assert (parseMAC (str (finalMAC
            (resolve {["mac" := "00:11:22"; "mode" := "direct"]} ∅)))
          = Failed (invalid (str "00:11:22"))) as Hparse by (by vm_compute).
  split; [exact Hparse |].
  rewrite (proj1 (proj2 (main_checks_address_first (sample_bmc None None)
             {["mac" := "00:11:22"; "mode" := "direct"]} ∅ 623 false))
             _ Hparse).
  by vm_compute.
Defined.



Lemma first_main_leaves_session_open_witness :
  session_established (sample_bmc None (Some "rejected"))
    "192.168.0.1" "admin" "admin" 623 false false ∧
  GetChassisStatus (sample_bmc None (Some "rejected")) false
    = (inr false, false) ∧
  ChassisControl (sample_bmc None (Some "rejected")) ChassisControlPowerUp false
    = (Some "rejected", false) ∧
  let '(ending, (_, tr)) :=
    main_v1 (sample_bmc None (Some "rejected")) (false, []) in
  (∃ message, ending = Legacy.Fatal message) ∧
  session_open tr = true ∧
  count is_close tr = 0.
Proof.
  assert (session_established (sample_bmc None (Some "rejected"))
            "192.168.0.1" "admin" "admin" 623 false false) as Hs
    by (exists false; split; reflexivity).
  split; [exact Hs |]. split; [reflexivity |]. split; [reflexivity |].
  exact (first_main_leaves_session_open (sample_bmc None (Some "rejected"))
           "192.168.0.1" "admin" "admin" 623 false false Hs
           (or_intror (ex_intro _ false (ex_intro _ "rejected"
              (ex_intro _ false (conj eq_refl eq_refl)))))).
Defined.

Lemma parseMAC_reads_octets_witness :
  (length octets_a = 6 ∨ length octets_a = 8 ∨ length octets_a = 20) ∧
  ("-"%byte = ":"%byte ∨ "-"%byte = "-"%byte) ∧
  render "-" octets_a = str "00-11-22-33-44-55" ∧
  Forall2 (λ p v, octet_value p = Some v) octets_a mac_a ∧
  parseMAC (render "-" octets_a) = Done mac_a.
Proof.
  assert (Forall2 (λ p v, octet_value p = Some v) octets_a mac_a) as Hvals
    by (repeat (constructor; [by vm_compute |]); constructor).
  split; [by left |]. split; [by right |]. split; [reflexivity |].
  split; [exact Hvals |].
  exact (proj2 (parseMAC_reads_octets "-" octets_a mac_a
                  (or_introl eq_refl) (or_intror eq_refl)) Hvals).
Defined.

Lemma parseMAC_rejects_bad_digit_witness :
  (length octets_bad = 6 ∨ length octets_bad = 8 ∨ length octets_bad = 20) ∧
  (":"%byte = ":"%byte ∨ ":"%byte = "-"%byte) ∧
  render ":" octets_bad = str "00:11:22:33:44:5g" ∧
  Exists (λ p, hex_digit p.1 = None ∨ hex_digit p.2 = None) octets_bad ∧
  ∃ err, parseMAC (render ":" octets_bad) = Failed err.
Proof.
  assert (Exists (λ p, hex_digit p.1 = None ∨ hex_digit p.2 = None) octets_bad)
    as Hbad by (do 5 apply Exists_cons_tl; apply Exists_cons_hd; by right).
  split; [by left |]. split; [by left |]. split; [reflexivity |].
  split; [exact Hbad |].
  exact (proj2 (parseMAC_rejects_bad_digit ":" octets_bad
                  (or_introl eq_refl) (or_introl eq_refl)) Hbad).
Defined.

Lemma parseMAC_hyphen_is_colon_witness :
  colon_for_hyphen <$> str "00-11:22-33:44-55"
    = colon_for_hyphen <$> str "00:11:22:33:44:55" ∧
  parseMAC (str "00-11:22-33:44-55") = parseMAC (str "00:11:22:33:44:55").
Proof.
  split; [reflexivity |].
  exact (parseMAC_hyphen_is_colon (str "00-11:22-33:44-55")
           (str "00:11:22:33:44:55") eq_refl).
Defined.

Lemma parseMAC_accepted_lengths_witness :
  parseMAC (str "0011.2233.4455") = Done mac_a ∧
  ((length (str "0011.2233.4455") = 17 ∧ length mac_a = 6) ∨
   (length (str "0011.2233.4455") = 23 ∧ length mac_a = 8) ∨
   (length (str "0011.2233.4455") = 59 ∧ length mac_a = 20) ∨
   (length (str "0011.2233.4455") = 14 ∧ length mac_a = 6) ∨
   (length (str "0011.2233.4455") = 19 ∧ length mac_a = 8) ∨
   (length (str "0011.2233.4455") = 49 ∧ length mac_a = 20)).
Proof.
  assert (parseMAC (str "0011.2233.4455") = Done mac_a) as Hparse
    by (by vm_compute).
  split; [exact Hparse |].
  exact (parseMAC_accepted_lengths (str "0011.2233.4455") mac_a Hparse).
Defined.

Lemma isValidWOLPacket_short_target_panics_witness :
  length [Byte.x00; Byte.x11] < 6 ∧ length (magic_packet mac_a) = 102 ∧
  (∀ k, k < 6 → magic_packet mac_a !! k = Some xFF) ∧
  (∀ j, j < length [Byte.x00; Byte.x11] →
        magic_packet mac_a !! (6 + j) = [Byte.x00; Byte.x11] !! j) ∧
  isValidWOLPacket (magic_packet mac_a) [Byte.x00; Byte.x11] = Panic.
Proof.
  assert (length [Byte.x00; Byte.x11] < 6) as Ht by (cbn; lia).
  assert (∀ k, k < 6 → magic_packet mac_a !! k = Some xFF) as Hsync.
  { intros k Hk. do 6 (destruct k as [|k]; [reflexivity |]). lia. }
  assert (∀ j, j < length [Byte.x00; Byte.x11] →
               magic_packet mac_a !! (6 + j) = [Byte.x00; Byte.x11] !! j)
    as Hmac.
  { intros j Hj. do 2 (destruct j as [|j]; [reflexivity |]). cbn in Hj. lia. }
  split; [exact Ht |]. split; [reflexivity |]. split; [exact Hsync |].
  split; [exact Hmac |].
  exact (isValidWOLPacket_short_target_panics (magic_packet mac_a)
           [Byte.x00; Byte.x11] Ht eq_refl Hsync Hmac).
Defined.

End further_witnesses.
